(** * BlockID: the identity-registry contract

    A shallow embedding of the [BlockID] Solidity contract (soulbound
    identities, admin approval, one wallet - one ID) and the properties of
    its state machine.

    Storage mappings are finite maps read with Solidity's zero default;
    [uint256] arithmetic is checked (pragma ^0.8.20): an overflowing
    operation reverts with [Panic(0x11)].  A function body runs in the
    transaction monad [Tx], which threads the storage and stops at the first
    revert; [call] is the transaction boundary of the EVM, which discards
    every write of a reverted call. *)

From stdpp Require Import gmap strings list fin_maps sorting.

Open Scope string_scope.
Open Scope list_scope.
Open Scope N_scope.

(** ** Value types *)

Abbreviation address := N (only parsing).
Abbreviation uint256 := N (only parsing).
Abbreviation bytes32 := N (only parsing).

Definition MAX_UINT256 : N := 2 ^ 256 - 1.

(** Solidity's default value of a type: what an unwritten storage slot
    reads as. *)
Class Zero (A : Type) := zero : A.

#[global] Instance Zero_N : Zero N := 0.
#[global] Instance Zero_bool : Zero bool := false.
#[global] Instance Zero_string : Zero string := "".
#[global] Instance Zero_list {A} : Zero (list A) := [].

Module Identity.
Record t := mk {
  owner : address;
  ipfsHash : string;
  createdAt : uint256;
  expiresAt : uint256;
  isVerified : bool;
  idType : string;
  uniqueIdentityHash : bytes32
}.

Definition set_ipfsHash (h : string) (i : t) : t :=
  mk (owner i) h (createdAt i) (expiresAt i) (isVerified i) (idType i)
     (uniqueIdentityHash i).

Definition set_isVerified (b : bool) (i : t) : t :=
  mk (owner i) (ipfsHash i) (createdAt i) (expiresAt i) b (idType i)
     (uniqueIdentityHash i).
End Identity.

Module IDRequest.
Record t := mk {
  requester : address;
  ipfsHash : string;
  requestedAt : uint256;
  uniqueIdentityHash : bytes32;
  isPending : bool;
  isApproved : bool;
  isRejected : bool
}.

Definition set_isPending (b : bool) (r : t) : t :=
  mk (requester r) (ipfsHash r) (requestedAt r) (uniqueIdentityHash r) b
     (isApproved r) (isRejected r).

Definition set_isApproved (b : bool) (r : t) : t :=
  mk (requester r) (ipfsHash r) (requestedAt r) (uniqueIdentityHash r)
     (isPending r) b (isRejected r).

Definition set_isRejected (b : bool) (r : t) : t :=
  mk (requester r) (ipfsHash r) (requestedAt r) (uniqueIdentityHash r)
     (isPending r) (isApproved r) b.
End IDRequest.

#[global] Instance Zero_Identity : Zero Identity.t :=
  Identity.mk 0 "" 0 0 false "" 0.
#[global] Instance Zero_IDRequest : Zero IDRequest.t :=
  IDRequest.mk 0 "" 0 0 false false false.

(** Reading a storage mapping: absent keys read as the zero value. *)
Definition sload {V} `{Zero V} (m : gmap N V) (k : N) : V :=
  default zero (m !! k).

Inductive Event :=
| OwnershipTransferred (previousOwner newOwner : address)
| IdentityCreated (idNumber : uint256) (owner : address) (idType : string)
                  (uniqueIdentityHash : bytes32)
| IdentityVerified (idNumber : uint256) (verifier : address)
| IdentityRevoked (idNumber : uint256) (revokedBy : address)
| VerifierAdded (verifier : address)
| VerifierRemoved (verifier : address)
| AdminChanged (oldAdmin newAdmin : address)
| IDRequested (requestId : uint256) (requester : address)
              (uniqueIdentityHash : bytes32)
| IDRequestApproved (requestId idNumber : uint256) (approvedBy : address)
| IDRequestRejected (requestId : uint256) (rejectedBy : address)
                    (reason : string).

(** ** Storage *)

Record State := mkState {
  _owner : address;
  identities : gmap N Identity.t;
  walletToId : gmap N N;
  hashToId : gmap N N;
  verifiers : gmap N bool;
  adminWallet : address;
  requestCounter : uint256;
  idRequests : gmap N IDRequest.t;
  userRequests : gmap N (list N);
  idCounter : uint256;
  events : list Event
}.

(** Storage of a contract before its constructor runs. *)
Definition genesis : State :=
  mkState 0 ∅ ∅ ∅ ∅ 0 0 ∅ ∅ 0 [].

Definition set_owner (a : address) (s : State) : State :=
  mkState a (identities s) (walletToId s) (hashToId s) (verifiers s)
    (adminWallet s) (requestCounter s) (idRequests s) (userRequests s)
    (idCounter s) (events s).

Definition upd_identities (f : gmap N Identity.t -> gmap N Identity.t)
    (s : State) : State :=
  mkState (_owner s) (f (identities s)) (walletToId s) (hashToId s)
    (verifiers s) (adminWallet s) (requestCounter s) (idRequests s)
    (userRequests s) (idCounter s) (events s).

Definition upd_walletToId (f : gmap N N -> gmap N N) (s : State) : State :=
  mkState (_owner s) (identities s) (f (walletToId s)) (hashToId s)
    (verifiers s) (adminWallet s) (requestCounter s) (idRequests s)
    (userRequests s) (idCounter s) (events s).

Definition upd_hashToId (f : gmap N N -> gmap N N) (s : State) : State :=
  mkState (_owner s) (identities s) (walletToId s) (f (hashToId s))
    (verifiers s) (adminWallet s) (requestCounter s) (idRequests s)
    (userRequests s) (idCounter s) (events s).

Definition upd_verifiers (f : gmap N bool -> gmap N bool) (s : State)
    : State :=
  mkState (_owner s) (identities s) (walletToId s) (hashToId s)
    (f (verifiers s)) (adminWallet s) (requestCounter s) (idRequests s)
    (userRequests s) (idCounter s) (events s).

Definition set_adminWallet (a : address) (s : State) : State :=
  mkState (_owner s) (identities s) (walletToId s) (hashToId s)
    (verifiers s) a (requestCounter s) (idRequests s) (userRequests s)
    (idCounter s) (events s).

Definition set_requestCounter (n : uint256) (s : State) : State :=
  mkState (_owner s) (identities s) (walletToId s) (hashToId s)
    (verifiers s) (adminWallet s) n (idRequests s) (userRequests s)
    (idCounter s) (events s).

Definition upd_idRequests (f : gmap N IDRequest.t -> gmap N IDRequest.t)
    (s : State) : State :=
  mkState (_owner s) (identities s) (walletToId s) (hashToId s)
    (verifiers s) (adminWallet s) (requestCounter s) (f (idRequests s))
    (userRequests s) (idCounter s) (events s).

Definition upd_userRequests (f : gmap N (list N) -> gmap N (list N))
    (s : State) : State :=
  mkState (_owner s) (identities s) (walletToId s) (hashToId s)
    (verifiers s) (adminWallet s) (requestCounter s) (idRequests s)
    (f (userRequests s)) (idCounter s) (events s).

Definition set_idCounter (n : uint256) (s : State) : State :=
  mkState (_owner s) (identities s) (walletToId s) (hashToId s)
    (verifiers s) (adminWallet s) (requestCounter s) (idRequests s)
    (userRequests s) n (events s).

Definition log (e : Event) (s : State) : State :=
  mkState (_owner s) (identities s) (walletToId s) (hashToId s)
    (verifiers s) (adminWallet s) (requestCounter s) (idRequests s)
    (userRequests s) (idCounter s) (events s ++ [e]).

(** ** Transactions *)

(** What a call can revert with: a [require]/[revert] reason string, a
    compiler panic, or one of the custom errors of [Ownable]. *)
Inductive Error :=
| Reason (msg : string)
| Panic (code : N)
| OwnableUnauthorizedAccount (account : address)
| OwnableInvalidOwner (account : address).

(** A run of a function body ends normally with a value, or at a revert;
    either way [Result] records the storage as the run left it. *)
Inductive Result (A : Type) :=
| Ok (a : A) (s : State)
| Revert (e : Error) (s : State).
Arguments Ok {A} a s.
Arguments Revert {A} e s.

Definition Tx (A : Type) : Type := State -> Result A.

Definition ret {A} (a : A) : Tx A := fun s => Ok a s.

Definition bind {A B} (m : Tx A) (k : A -> Tx B) : Tx B :=
  fun s => match m s with
           | Ok a s' => k a s'
           | Revert e s' => Revert e s'
           end.

Notation "x <- m ;; k" := (bind m (fun x => k))
  (at level 100, m at next level, right associativity).
Notation "m ;;; k" := (bind m (fun _ => k))
  (at level 100, right associativity).

Definition revert {A} (e : Error) : Tx A := fun s => Revert e s.

Definition require (b : bool) (msg : string) : Tx unit :=
  if b then ret tt else revert (Reason msg).

Definition gets {A} (f : State -> A) : Tx A := fun s => Ok (f s) s.

Definition modify (f : State -> State) : Tx unit := fun s => Ok tt (f s).

Definition emit (e : Event) : Tx unit := modify (log e).

(** Checked [uint256] addition. *)
Definition checked_add (a b : uint256) : Tx uint256 :=
  if a + b <=? MAX_UINT256 then ret (a + b) else revert (Panic 17).

(** The transaction boundary: the result seen by the caller and the storage
    after the call.  A reverted call leaves the storage it started from. *)
Definition call {A} (m : Tx A) (s : State) : (Error + A) * State :=
  match m s with
  | Ok a s' => (inr a, s')
  | Revert e _ => (inl e, s)
  end.

Record Env := mkEnv {
  msg_sender : address;
  block_timestamp : uint256
}.

(** ** The [Ownable] base contract *)

(** [BlockID] inherits OpenZeppelin's [Ownable] (the release whose
    constructor takes the initial owner), an imported library whose source is
    not part of the repository.  The specification describes the role as a
    single owner, replaceable only by itself, every replacement being an
    auditable event. *)
Module Ownable.
(** Modelled from the spec: [owner()] of the missing [Ownable] base
    contract, the single owner address of the role store. *)
Definition owner : Tx address := gets _owner.

(** Modelled from the spec: the [onlyOwner] guard of the missing [Ownable]
    base contract; owner-only entry points reject every other caller. *)
Definition _checkOwner (env : Env) : Tx unit :=
  o <- owner ;;
  if o =? msg_sender env then ret tt
  else revert (OwnableUnauthorizedAccount (msg_sender env)).

(** Modelled from the spec: the owner replacement of the missing [Ownable]
    base contract, logged as a role-change event. *)
Definition _transferOwnership (newOwner : address) : Tx unit :=
  oldOwner <- gets _owner ;;
  modify (set_owner newOwner) ;;;
  emit (OwnershipTransferred oldOwner newOwner).

(** Modelled from the spec: the constructor of the missing [Ownable] base
    contract, which installs the bootstrap owner and refuses the null
    address. *)
Definition constructor (initialOwner : address) : Tx unit :=
  if initialOwner =? 0 then revert (OwnableInvalidOwner 0)
  else _transferOwnership initialOwner.

(** Modelled from the spec: [transferOwnership] of the missing [Ownable]
    base contract; the owner is replaceable only by itself, and not by the
    null address. *)
Definition transferOwnership (env : Env) (newOwner : address) : Tx unit :=
  _checkOwner env ;;;
  if newOwner =? 0 then revert (OwnableInvalidOwner 0)
  else _transferOwnership newOwner.

(** Modelled from the spec: [renounceOwnership] of the missing [Ownable]
    base contract; the owner gives the role up, leaving the contract without
    an owner. *)
Definition renounceOwnership (env : Env) : Tx unit :=
  _checkOwner env ;;;
  _transferOwnership 0.
End Ownable.

(** ** The [BlockID] contract *)

Definition constructor (env : Env) (_adminWallet : address) : Tx unit :=
  Ownable.constructor (msg_sender env) ;;;
  modify (set_adminWallet _adminWallet) ;;;
  modify (upd_verifiers (<[msg_sender env := true]>)) ;;;
  modify (upd_verifiers (<[_adminWallet := true]>)) ;;;
  emit (VerifierAdded (msg_sender env)) ;;;
  emit (VerifierAdded _adminWallet) ;;;
  emit (AdminChanged 0 _adminWallet).

Definition onlyVerifier (env : Env) : Tx unit :=
  v <- gets (fun s => sload (verifiers s) (msg_sender env)) ;;
  require v "BlockID: caller is not a verifier".

Definition onlyAdmin (env : Env) : Tx unit :=
  a <- gets adminWallet ;;
  require (msg_sender env =? a) "BlockID: caller is not the admin".

Definition changeAdmin (env : Env) (_newAdmin : address) : Tx unit :=
  Ownable._checkOwner env ;;;
  require (negb (_newAdmin =? 0)) "BlockID: invalid address" ;;;
  oldAdmin <- gets adminWallet ;;
  modify (set_adminWallet _newAdmin) ;;;
  isV <- gets (fun s => sload (verifiers s) _newAdmin) ;;
  (if negb isV then
     modify (upd_verifiers (<[_newAdmin := true]>)) ;;;
     emit (VerifierAdded _newAdmin)
   else ret tt) ;;;
  emit (AdminChanged oldAdmin _newAdmin).

Definition getAdmin : Tx address := gets adminWallet.

Definition hasIdentity (owner : address) : Tx bool :=
  gets (fun s => negb (sload (walletToId s) owner =? 0)).

Definition isHashRegistered (uniqueHash : bytes32) : Tx bool :=
  gets (fun s => negb (sload (hashToId s) uniqueHash =? 0)).

Definition isAdmin (addr : address) : Tx bool :=
  gets (fun s => addr =? adminWallet s).

(** The loop of [requestIdentity] over [userRequests[msg.sender]]: it
    reverts at the first listed request that is pending and carries
    [uniqueHash]. *)
Fixpoint scanPending (uniqueHash : bytes32) (reqIds : list uint256)
    : Tx unit :=
  match reqIds with
  | [] => ret tt
  | reqId :: rest =>
      r <- gets (fun s => sload (idRequests s) reqId) ;;
      if IDRequest.isPending r && (IDRequest.uniqueIdentityHash r =? uniqueHash)
      then revert (Reason "BlockID: a request with this hash is already pending")
      else scanPending uniqueHash rest
  end.

Definition requestIdentity (env : Env) (ipfsHash idType : string)
    (uniqueHash : bytes32) : Tx uint256 :=
  has <- hasIdentity (msg_sender env) ;;
  require (negb has) "BlockID: wallet already has an ID" ;;;
  reg <- isHashRegistered uniqueHash ;;
  require (negb reg) "BlockID: identity with this hash already exists" ;;;
  reqIds <- gets (fun s => sload (userRequests s) (msg_sender env)) ;;
  scanPending uniqueHash reqIds ;;;
  n <- gets requestCounter ;;
  requestId <- checked_add n 1 ;;
  modify (set_requestCounter requestId) ;;;
  modify (upd_idRequests (<[requestId :=
    IDRequest.mk (msg_sender env) ipfsHash (block_timestamp env) uniqueHash
                 true false false]>)) ;;;
  modify (upd_userRequests (fun m =>
    <[msg_sender env := sload m (msg_sender env) ++ [requestId]]> m)) ;;;
  emit (IDRequested requestId (msg_sender env) uniqueHash) ;;;
  ret requestId.

(** [expiryDuration > 0 ? block.timestamp + expiryDuration : 0] *)
Definition expiryOf (env : Env) (expiryDuration : uint256) : Tx uint256 :=
  if 0 <? expiryDuration then checked_add (block_timestamp env) expiryDuration
  else ret 0.

Definition approveIDRequest (env : Env) (requestId expiryDuration : uint256)
    : Tx uint256 :=
  onlyAdmin env ;;;
  r <- gets (fun s => sload (idRequests s) requestId) ;;
  require (negb (IDRequest.requester r =? 0))
          "BlockID: request does not exist" ;;;
  require (IDRequest.isPending r) "BlockID: request is not pending" ;;;
  let requester := IDRequest.requester r in
  let ipfsHash := IDRequest.ipfsHash r in
  let uniqueHash := IDRequest.uniqueIdentityHash r in
  has <- hasIdentity requester ;;
  require (negb has) "BlockID: requester already has an ID" ;;;
  reg <- isHashRegistered uniqueHash ;;
  require (negb reg) "BlockID: identity with this hash already exists" ;;;
  c <- gets idCounter ;;
  idNumber <- checked_add c 1 ;;
  modify (set_idCounter idNumber) ;;;
  expiresAt <- expiryOf env expiryDuration ;;
  modify (upd_identities (<[idNumber :=
    Identity.mk requester ipfsHash (block_timestamp env) expiresAt true
                "personal_id" uniqueHash]>)) ;;;
  modify (upd_walletToId (<[requester := idNumber]>)) ;;;
  modify (upd_hashToId (<[uniqueHash := idNumber]>)) ;;;
  modify (upd_idRequests (fun m =>
    <[requestId := IDRequest.set_isPending false (sload m requestId)]> m)) ;;;
  modify (upd_idRequests (fun m =>
    <[requestId := IDRequest.set_isApproved true (sload m requestId)]> m)) ;;;
  emit (IDRequestApproved requestId idNumber (msg_sender env)) ;;;
  emit (IdentityCreated idNumber requester "personal_id" uniqueHash) ;;;
  ret idNumber.

Definition rejectIDRequest (env : Env) (requestId : uint256)
    (reason : string) : Tx unit :=
  onlyAdmin env ;;;
  r <- gets (fun s => sload (idRequests s) requestId) ;;
  require (negb (IDRequest.requester r =? 0))
          "BlockID: request does not exist" ;;;
  require (IDRequest.isPending r) "BlockID: request is not pending" ;;;
  modify (upd_idRequests (fun m =>
    <[requestId := IDRequest.set_isPending false (sload m requestId)]> m)) ;;;
  modify (upd_idRequests (fun m =>
    <[requestId := IDRequest.set_isRejected true (sload m requestId)]> m)) ;;;
  emit (IDRequestRejected requestId (msg_sender env) reason).

Definition getUserRequests (user : address) : Tx (list uint256) :=
  gets (fun s => sload (userRequests s) user).

Definition getRequestDetails (requestId : uint256) : Tx IDRequest.t :=
  request <- gets (fun s => sload (idRequests s) requestId) ;;
  require (negb (IDRequest.requester request =? 0))
          "BlockID: request does not exist" ;;;
  ret request.

Definition createIdentity (env : Env) (owner : address) (ipfsHash : string)
    (expiryDuration : uint256) (idType : string) (uniqueHash : bytes32)
    : Tx uint256 :=
  onlyAdmin env ;;;
  has <- hasIdentity owner ;;
  require (negb has) "BlockID: wallet already has an ID minted" ;;;
  reg <- isHashRegistered uniqueHash ;;
  require (negb reg)
          "BlockID: identity with this unique hash already exists" ;;;
  c <- gets idCounter ;;
  idNumber <- checked_add c 1 ;;
  modify (set_idCounter idNumber) ;;;
  expiresAt <- expiryOf env expiryDuration ;;
  modify (upd_identities (<[idNumber :=
    Identity.mk owner ipfsHash (block_timestamp env) expiresAt true idType
                uniqueHash]>)) ;;;
  modify (upd_walletToId (<[owner := idNumber]>)) ;;;
  modify (upd_hashToId (<[uniqueHash := idNumber]>)) ;;;
  emit (IdentityCreated idNumber owner idType uniqueHash) ;;;
  ret idNumber.

Definition verifyIdentity (env : Env) (idNumber : uint256) : Tx unit :=
  onlyVerifier env ;;;
  i <- gets (fun s => sload (identities s) idNumber) ;;
  require (negb (Identity.owner i =? 0))
          "BlockID: identity does not exist" ;;;
  require (negb (Identity.isVerified i))
          "BlockID: identity already verified" ;;;
  modify (upd_identities (fun m =>
    <[idNumber := Identity.set_isVerified true (sload m idNumber)]> m)) ;;;
  emit (IdentityVerified idNumber (msg_sender env)).

Definition revokeIdentity (env : Env) (idNumber : uint256) : Tx unit :=
  i <- gets (fun s => sload (identities s) idNumber) ;;
  require (negb (Identity.owner i =? 0))
          "BlockID: identity does not exist" ;;;
  isV <- gets (fun s => sload (verifiers s) (msg_sender env)) ;;
  own <- Ownable.owner ;;
  adm <- gets adminWallet ;;
  require ((Identity.owner i =? msg_sender env) || isV
           || (own =? msg_sender env) || (msg_sender env =? adm))
          "BlockID: caller is not authorized" ;;;
  modify (fun s => upd_walletToId
    (<[Identity.owner (sload (identities s) idNumber) := 0]>) s) ;;;
  modify (fun s => upd_hashToId
    (<[Identity.uniqueIdentityHash (sload (identities s) idNumber) := 0]>)
    s) ;;;
  modify (upd_identities (delete idNumber)) ;;;
  emit (IdentityRevoked idNumber (msg_sender env)).

Definition updateIdentityData (env : Env) (idNumber : uint256)
    (newIpfsHash : string) : Tx unit :=
  i <- gets (fun s => sload (identities s) idNumber) ;;
  require (negb (Identity.owner i =? 0))
          "BlockID: identity does not exist" ;;;
  adm <- gets adminWallet ;;
  require ((Identity.owner i =? msg_sender env) || (msg_sender env =? adm))
          "BlockID: caller is not the owner or admin" ;;;
  modify (upd_identities (fun m =>
    <[idNumber := Identity.set_ipfsHash newIpfsHash (sload m idNumber)]> m)).

Definition addVerifier (env : Env) (verifier : address) : Tx unit :=
  onlyAdmin env ;;;
  require (negb (verifier =? 0)) "BlockID: invalid address" ;;;
  isV <- gets (fun s => sload (verifiers s) verifier) ;;
  require (negb isV) "BlockID: already a verifier" ;;;
  modify (upd_verifiers (<[verifier := true]>)) ;;;
  emit (VerifierAdded verifier).

Definition removeVerifier (env : Env) (verifier : address) : Tx unit :=
  onlyAdmin env ;;;
  isV <- gets (fun s => sload (verifiers s) verifier) ;;
  require isV "BlockID: not a verifier" ;;;
  adm <- gets adminWallet ;;
  require (negb (verifier =? adm))
          "BlockID: cannot remove admin as verifier" ;;;
  own <- Ownable.owner ;;
  require (negb (verifier =? own))
          "BlockID: cannot remove owner as verifier" ;;;
  modify (upd_verifiers (<[verifier := false]>)) ;;;
  emit (VerifierRemoved verifier).

Definition isVerifier (verifier : address) : Tx bool :=
  gets (fun s => sload (verifiers s) verifier).

Definition getIdentity (idNumber : uint256) : Tx Identity.t :=
  identity <- gets (fun s => sload (identities s) idNumber) ;;
  require (negb (Identity.owner identity =? 0))
          "BlockID: identity does not exist" ;;;
  ret identity.

Definition getIdentityByOwner (owner : address) : Tx uint256 :=
  gets (fun s => sload (walletToId s) owner).

Definition getIdentityByHash (uniqueHash : bytes32) : Tx uint256 :=
  gets (fun s => sload (hashToId s) uniqueHash).

Definition isIdentityValid (env : Env) (idNumber : uint256) : Tx bool :=
  identity <- gets (fun s => sload (identities s) idNumber) ;;
  if Identity.owner identity =? 0 then ret false
  else if negb (Identity.isVerified identity) then ret false
  else if (0 <? Identity.expiresAt identity)
          && (Identity.expiresAt identity <? block_timestamp env)
  then ret false
  else ret true.

Definition verifyIdentityHash (idNumber : uint256) (claimedHash : bytes32)
    : Tx bool :=
  identity <- gets (fun s => sload (identities s) idNumber) ;;
  require (negb (Identity.owner identity =? 0))
          "BlockID: identity does not exist" ;;;
  ret (Identity.uniqueIdentityHash identity =? claimedHash).

(** ** The contract as a state machine *)

(** The state-changing entry points of the deployed contract. *)
Inductive Call :=
| TransferOwnership (newOwner : address)
| RenounceOwnership
| ChangeAdmin (_newAdmin : address)
| RequestIdentity (ipfsHash idType : string) (uniqueHash : bytes32)
| ApproveIDRequest (requestId expiryDuration : uint256)
| RejectIDRequest (requestId : uint256) (reason : string)
| CreateIdentity (owner : address) (ipfsHash : string)
                 (expiryDuration : uint256) (idType : string)
                 (uniqueHash : bytes32)
| VerifyIdentity (idNumber : uint256)
| RevokeIdentity (idNumber : uint256)
| UpdateIdentityData (idNumber : uint256) (newIpfsHash : string)
| AddVerifier (verifier : address)
| RemoveVerifier (verifier : address).

Inductive Value :=
| VUnit
| VUint (n : uint256).

Definition returning {A} (f : A -> Value) (m : Tx A) : Tx Value :=
  a <- m ;; ret (f a).

Definition dispatch (env : Env) (c : Call) : Tx Value :=
  match c with
  | TransferOwnership a =>
      returning (fun _ => VUnit) (Ownable.transferOwnership env a)
  | RenounceOwnership =>
      returning (fun _ => VUnit) (Ownable.renounceOwnership env)
  | ChangeAdmin a => returning (fun _ => VUnit) (changeAdmin env a)
  | RequestIdentity ipfs ty h =>
      returning VUint (requestIdentity env ipfs ty h)
  | ApproveIDRequest r d => returning VUint (approveIDRequest env r d)
  | RejectIDRequest r why =>
      returning (fun _ => VUnit) (rejectIDRequest env r why)
  | CreateIdentity o ipfs d ty h =>
      returning VUint (createIdentity env o ipfs d ty h)
  | VerifyIdentity i => returning (fun _ => VUnit) (verifyIdentity env i)
  | RevokeIdentity i => returning (fun _ => VUnit) (revokeIdentity env i)
  | UpdateIdentityData i ipfs =>
      returning (fun _ => VUnit) (updateIdentityData env i ipfs)
  | AddVerifier a => returning (fun _ => VUnit) (addVerifier env a)
  | RemoveVerifier a => returning (fun _ => VUnit) (removeVerifier env a)
  end.

(** One transaction sent to the contract, and the storage it leaves. *)
Definition transact (env : Env) (c : Call) (s : State)
    : (Error + Value) * State :=
  call (dispatch env c) s.

Definition step (env : Env) (c : Call) (s : State) : State :=
  snd (transact env c s).

(** The states of a deployed contract: the one its constructor leaves, and
    those any sequence of transactions, by any senders at any times, leads
    to. *)
Inductive reachable : State -> Prop :=
| reachable_deploy env _adminWallet s :
    constructor env _adminWallet genesis = Ok tt s -> reachable s
| reachable_step env c s :
    reachable s -> reachable (step env c s).

(** Running a list of transactions in order. *)
Fixpoint run (txs : list (Env * Call)) (s : State) : State :=
  match txs with
  | [] => s
  | (env, c) :: rest => run rest (step env c s)
  end.

(** The contract deployed by [deployer] with admin [admin]. *)
Definition deployed (deployer admin : address) : State :=
  snd (call (constructor (mkEnv deployer 0) admin) genesis).

(** ** The error kinds of the specification *)

Inductive ErrorKind :=
| AuthorizationError
| DuplicateIdentityError
| DuplicateFingerprintError
| DuplicatePendingRequestError
| NotFoundError
| InvalidStateError
| InvalidArgumentError.

(** The revert reasons of the contract under the kinds the specification
    names for them.  The specification names no kind for the two
    verifier-membership reasons; they reject the current state of the
    address they are about, as "already verified" does for an identity. *)
Definition reasonKinds : list (string * ErrorKind) :=
  [ ("BlockID: caller is not a verifier", AuthorizationError);
    ("BlockID: caller is not the admin", AuthorizationError);
    ("BlockID: caller is not authorized", AuthorizationError);
    ("BlockID: caller is not the owner or admin", AuthorizationError);
    ("BlockID: cannot remove admin as verifier", AuthorizationError);
    ("BlockID: cannot remove owner as verifier", AuthorizationError);
    ("BlockID: invalid address", InvalidArgumentError);
    ("BlockID: wallet already has an ID", DuplicateIdentityError);
    ("BlockID: wallet already has an ID minted", DuplicateIdentityError);
    ("BlockID: requester already has an ID", DuplicateIdentityError);
    ("BlockID: identity with this hash already exists",
     DuplicateFingerprintError);
    ("BlockID: identity with this unique hash already exists",
     DuplicateFingerprintError);
    ("BlockID: a request with this hash is already pending",
     DuplicatePendingRequestError);
    ("BlockID: request does not exist", NotFoundError);
    ("BlockID: identity does not exist", NotFoundError);
    ("BlockID: request is not pending", InvalidStateError);
    ("BlockID: identity already verified", InvalidStateError);
    ("BlockID: already a verifier", InvalidStateError);
    ("BlockID: not a verifier", InvalidStateError) ].

Fixpoint assoc (k : string) (l : list (string * ErrorKind))
    : option ErrorKind :=
  match l with
  | [] => None
  | (k', v) :: rest => if String.eqb k k' then Some v else assoc k rest
  end.

(** An arithmetic panic belongs to none of the kinds. *)
Definition kindOf (e : Error) : option ErrorKind :=
  match e with
  | Reason msg => assoc msg reasonKinds
  | Panic _ => None
  | OwnableUnauthorizedAccount _ => Some AuthorizationError
  | OwnableInvalidOwner _ => Some InvalidArgumentError
  end.

(** ** Predicates on the storage *)

(** An identity exists under a number when the record there has an owner. *)
Definition exists_identity (s : State) (idNumber : uint256) : Prop :=
  Identity.owner (sload (identities s) idNumber) ≠ 0.

(** The admin is a verifier. *)
Definition admin_is_verifier (s : State) : Prop :=
  sload (verifiers s) (adminWallet s) = true.

(** Every stored record was minted under a number already handed out, is
    indexed under its owner and its fingerprint, and is verified. *)
Definition ledger_indexed (s : State) : Prop :=
  ∀ idNumber i, identities s !! idNumber = Some i →
    1 ≤ idNumber ∧ idNumber ≤ idCounter s ∧
    sload (walletToId s) (Identity.owner i) = idNumber ∧
    sload (hashToId s) (Identity.uniqueIdentityHash i) = idNumber ∧
    Identity.isVerified i = true.

(** A non-zero wallet-index entry points to a stored record of that
    owner. *)
Definition wallet_index_sound (s : State) : Prop :=
  ∀ a idNumber, sload (walletToId s) a = idNumber → idNumber ≠ 0 →
    ∃ i, identities s !! idNumber = Some i ∧ Identity.owner i = a.

(** A non-zero fingerprint-index entry points to a stored record of that
    fingerprint. *)
Definition hash_index_sound (s : State) : Prop :=
  ∀ h idNumber, sload (hashToId s) h = idNumber → idNumber ≠ 0 →
    ∃ i, identities s !! idNumber = Some i ∧
         Identity.uniqueIdentityHash i = h.

Record Inv (s : State) : Prop := mkInv {
  inv_admin : admin_is_verifier s;
  inv_ledger : ledger_indexed s;
  inv_wallet : wallet_index_sound s;
  inv_hash : hash_index_sound s
}.

(** Whether one of the requests listed in [reqIds] is pending with
    fingerprint [h]. *)
Definition pendingWith (s : State) (h : bytes32) (reqIds : list uint256)
    : bool :=
  existsb (fun reqId =>
             IDRequest.isPending (sload (idRequests s) reqId)
             && (IDRequest.uniqueIdentityHash (sload (idRequests s) reqId)
                 =? h))
          reqIds.

(** A call that reverts with [e], an error of kind [k]; the storage after
    it is the storage before it. *)
Definition fails_with {A} (m : Tx A) (s : State) (e : Error)
    (k : ErrorKind) : Prop :=
  call m s = (inl e, s) ∧ kindOf e = Some k.

(** [expiryDuration > 0 ? block.timestamp + expiryDuration : 0], when the
    sum fits. *)
Definition expiresAtOf (env : Env) (expiryDuration : uint256) : uint256 :=
  if 0 <? expiryDuration then block_timestamp env + expiryDuration else 0.

(** ** Scenarios

    Deployer 1 deploys with admin 2; 3 and 5 are ordinary accounts; 7 is a
    fingerprint. *)

(** The admin creates an identity directly for the null address. *)
Definition ghost_minted : State :=
  step (mkEnv 2 10) (CreateIdentity 0 "Qm" 0 "passport" 7) (deployed 1 2).

(** Account 5 submits a request with fingerprint 7; before it is resolved
    the admin creates 5's identity directly with the same fingerprint. *)
Definition minted_while_pending : State :=
  run [ (mkEnv 5 10, RequestIdentity "Qm" "passport" 7);
        (mkEnv 2 11, CreateIdentity 5 "Qm" 0 "passport" 7) ]
      (deployed 1 2).

(** ... and account 5 then revokes that identity. *)
Definition revoked_while_pending : State :=
  step (mkEnv 5 12) (RevokeIdentity 1) minted_while_pending.

(** The deployer hands the ownership of the contract to account 3. *)
Definition ownership_moved : State :=
  step (mkEnv 1 5) (TransferOwnership 3) (deployed 1 2).

(** Account 5 has submitted a request with fingerprint 7. *)
Definition one_request : State :=
  step (mkEnv 5 10) (RequestIdentity "Qm" "passport" 7) (deployed 1 2).

(** ** Listing the pending requests *)

(** The values [i] takes in [for (uint256 i = from; ...; i++)] over [k]
    iterations. *)
Fixpoint idsFrom (from : uint256) (k : nat) : list uint256 :=
  match k with
  | O => []
  | S k' => from :: idsFrom (from + 1) k'
  end.

(** The values of [i] in [for (uint256 i = 1; i <= n; i++)]. *)
Definition idsUpTo (n : uint256) : list uint256 := idsFrom 1 (N.to_nat n).

(** The first loop of [getPendingRequests], over the values of [i]: it
    counts the pending requests; [i++] is checked after every iteration. *)
Fixpoint countPendingIn (ids : list uint256) (count : uint256)
    : Tx uint256 :=
  match ids with
  | [] => ret count
  | i :: rest =>
      r <- gets (fun s => sload (idRequests s) i) ;;
      count' <- (if IDRequest.isPending r then checked_add count 1
                 else ret count) ;;
      _ <- checked_add i 1 ;;
      countPendingIn rest count'
  end.

(** [pendingIds[index] = i] on a memory array: out of bounds panics with
    code 0x32. *)
Definition storeAt (pendingIds : list uint256) (index i : uint256)
    : Tx (list uint256) :=
  if index <? N.of_nat (length pendingIds)
  then ret (<[N.to_nat index := i]> pendingIds)
  else revert (Panic 50).

(** The second loop of [getPendingRequests]: it writes the pending request
    numbers into the array, from [index] on. *)
Fixpoint fillPendingIn (ids : list uint256) (index : uint256)
    (pendingIds : list uint256) : Tx (list uint256) :=
  match ids with
  | [] => ret pendingIds
  | i :: rest =>
      r <- gets (fun s => sload (idRequests s) i) ;;
      if IDRequest.isPending r then
        pendingIds' <- storeAt pendingIds index i ;;
        index' <- checked_add index 1 ;;
        _ <- checked_add i 1 ;;
        fillPendingIn rest index' pendingIds'
      else
        _ <- checked_add i 1 ;;
        fillPendingIn rest index pendingIds
  end.

Definition getPendingRequests : Tx (list uint256) :=
  n <- gets requestCounter ;;
  count <- countPendingIn (idsUpTo n) 0 ;;
  fillPendingIn (idsUpTo n) 0 (replicate (N.to_nat count) 0).

(** The pending requests among [ids], in the order of [ids]. *)
Definition pendingAmong (s : State) (ids : list uint256) : list uint256 :=
  filter (fun i => IDRequest.isPending (sload (idRequests s) i) = true) ids.

(** ** Predicates on the request ledger *)

(** The status of a request: exactly one of the three flags is set. *)
Definition one_status (r : IDRequest.t) : Prop :=
  (IDRequest.isPending r = true ∧ IDRequest.isApproved r = false ∧
   IDRequest.isRejected r = false) ∨
  (IDRequest.isPending r = false ∧ IDRequest.isApproved r = true ∧
   IDRequest.isRejected r = false) ∨
  (IDRequest.isPending r = false ∧ IDRequest.isApproved r = false ∧
   IDRequest.isRejected r = true).

(** Requests are stored under exactly the numbers handed out so far, each
    with one status; the per-requester lists hold exactly the numbers of the
    requester's requests, in increasing order. *)
Record ReqInv (s : State) : Prop := mkReqInv {
  req_range : ∀ id r, idRequests s !! id = Some r →
                1 ≤ id ∧ id ≤ requestCounter s;
  req_dense : ∀ id, 1 ≤ id → id ≤ requestCounter s →
                is_Some (idRequests s !! id);
  req_status : ∀ id r, idRequests s !! id = Some r → one_status r;
  req_listed : ∀ a id, id ∈ sload (userRequests s) a ↔
                 ∃ r, idRequests s !! id = Some r ∧ IDRequest.requester r = a;
  req_sorted : ∀ a, StronglySorted N.lt (sload (userRequests s) a)
}.

(** The fields of a request that no entry point writes after submission. *)
Definition same_submission (r r' : IDRequest.t) : Prop :=
  IDRequest.requester r' = IDRequest.requester r ∧
  IDRequest.ipfsHash r' = IDRequest.ipfsHash r ∧
  IDRequest.requestedAt r' = IDRequest.requestedAt r ∧
  IDRequest.uniqueIdentityHash r' = IDRequest.uniqueIdentityHash r.

(** The fields of an identity that no entry point writes after creation. *)
Definition same_credential (i i' : Identity.t) : Prop :=
  Identity.owner i' = Identity.owner i ∧
  Identity.createdAt i' = Identity.createdAt i ∧
  Identity.expiresAt i' = Identity.expiresAt i ∧
  Identity.idType i' = Identity.idType i ∧
  Identity.uniqueIdentityHash i' = Identity.uniqueIdentityHash i.

(** ** Storage reads after writes *)

Section Sload.
Context {V : Type} `{Zero V}.

Lemma sload_insert (m : gmap N V) k j v :
  sload (<[k := v]> m) j = if decide (k = j) then v else sload m j.
Proof.
  unfold sload. rewrite lookup_insert. by case_decide.
Qed.

Lemma sload_insert_eq (m : gmap N V) k v : sload (<[k := v]> m) k = v.
Proof. rewrite sload_insert. by case_decide. Qed.

Lemma sload_insert_ne (m : gmap N V) k j v :
  k ≠ j → sload (<[k := v]> m) j = sload m j.
Proof. intros. rewrite sload_insert. by case_decide. Qed.

Lemma sload_delete (m : gmap N V) k j :
  sload (delete k m) j = if decide (k = j) then zero else sload m j.
Proof.
  unfold sload. rewrite lookup_delete. by case_decide.
Qed.

Lemma sload_Some (m : gmap N V) k v : m !! k = Some v → sload m k = v.
Proof. unfold sload. by intros ->. Qed.

Lemma sload_None (m : gmap N V) k : m !! k = None → sload m k = zero.
Proof. unfold sload. by intros ->. Qed.
End Sload.

Lemma owner_lookup (m : gmap N Identity.t) k :
  Identity.owner (sload m k) ≠ 0 → m !! k = Some (sload m k).
Proof.
  unfold sload. destruct (m !! k); simpl; [done|]. intros Hne. by destruct Hne.
Qed.

(** The pending-duplicate loop writes nothing, and reverts exactly when a
    listed request is pending with the fingerprint. *)
Lemma scanPending_eq h reqIds s :
  scanPending h reqIds s =
    if pendingWith s h reqIds
    then Revert (Reason "BlockID: a request with this hash is already pending")
                s
    else Ok tt s.
Proof.
  induction reqIds as [|reqId rest IH]; simpl; [done|].
  unfold bind, gets, revert.
  destruct (IDRequest.isPending (sload (idRequests s) reqId)
            && (IDRequest.uniqueIdentityHash (sload (idRequests s) reqId)
                =? h)); simpl; [done|apply IH].
Qed.

(** ** Inverting a run *)

(** Unfolds the monad in a hypothesis or the goal and splits on every guard
    that decides the run. *)
Ltac tx_unfold :=
  cbv [bind ret revert require gets modify emit checked_add expiryOf
       onlyAdmin onlyVerifier hasIdentity isHashRegistered returning
       Ownable.owner Ownable._checkOwner Ownable._transferOwnership
       Ownable.constructor Ownable.transferOwnership
       Ownable.renounceOwnership] in *.

Ltac tx_cases :=
  repeat match goal with
         | H : context [if ?b then _ else _] |- _ =>
             destruct b eqn:?; cbv beta iota in *
         | |- context [if ?b then _ else _] =>
             destruct b eqn:?; cbv beta iota in *
         | H : context [scanPending _ _ _] |- _ =>
             rewrite scanPending_eq in H
         | |- context [scanPending _ _ _] => rewrite scanPending_eq
         | H : Ok _ _ = Ok _ _ |- _ => inversion H; clear H; subst
         | H : Revert _ _ = Revert _ _ |- _ => inversion H; clear H; subst
         | H : Ok _ _ = Revert _ _ |- _ => discriminate H
         | H : Revert _ _ = Ok _ _ |- _ => discriminate H
         end.

Ltac bool_facts :=
  repeat match goal with
         | H : negb _ = true |- _ => apply negb_true_iff in H
         | H : negb _ = false |- _ => apply negb_false_iff in H
         | H : (_ && _) = true |- _ => apply andb_true_iff in H; destruct H
         | H : (_ =? _) = true |- _ => apply N.eqb_eq in H
         | H : (_ =? _) = false |- _ => apply N.eqb_neq in H
         | H : (_ <=? _) = true |- _ => apply N.leb_le in H
         | H : (_ <=? _) = false |- _ => apply N.leb_gt in H
         | H : (_ <? _) = true |- _ => apply N.ltb_lt in H
         | H : (_ <? _) = false |- _ => apply N.ltb_ge in H
         end.

(** ** How the invariant fares under the writes of the contract *)

Section InvariantSteps.
Variables s s' : State.
Hypothesis HI : Inv s.

(** Writes outside the ledger, the indexes and the roles. *)
Lemma Inv_frame :
  verifiers s' = verifiers s → adminWallet s' = adminWallet s →
  identities s' = identities s → walletToId s' = walletToId s →
  hashToId s' = hashToId s → idCounter s' = idCounter s →
  Inv s'.
Proof.
  destruct HI as [Ha Hl Hw Hh]. intros Ev Ea Ei Ew Ehh Ec.
  split; red; rewrite ?Ev, ?Ea, ?Ei, ?Ew, ?Ehh, ?Ec; assumption.
Qed.

(** A change of roles that keeps the admin a verifier. *)
Lemma Inv_roles :
  admin_is_verifier s' →
  identities s' = identities s → walletToId s' = walletToId s →
  hashToId s' = hashToId s → idCounter s' = idCounter s →
  Inv s'.
Proof.
  destruct HI as [Ha Hl Hw Hh]. intros Ha' Ei Ew Ehh Ec.
  split; [assumption|..]; red; rewrite ?Ei, ?Ew, ?Ehh, ?Ec; assumption.
Qed.

(** Minting record [i] under the next number, for a free wallet and a free
    fingerprint. *)
Lemma Inv_mint (i : Identity.t) :
  sload (walletToId s) (Identity.owner i) = 0 →
  sload (hashToId s) (Identity.uniqueIdentityHash i) = 0 →
  Identity.isVerified i = true →
  verifiers s' = verifiers s → adminWallet s' = adminWallet s →
  idCounter s' = idCounter s + 1 →
  identities s' = <[idCounter s + 1 := i]> (identities s) →
  walletToId s' = <[Identity.owner i := idCounter s + 1]> (walletToId s) →
  hashToId s' =
    <[Identity.uniqueIdentityHash i := idCounter s + 1]> (hashToId s) →
  Inv s'.
Proof.
  destruct HI as [Ha Hl Hw Hh]. intros Fw Fh Vi Ev Ea Ec Ei Ew Ehh.
  split; red.
  - by rewrite Ev, Ea.
  - intros n j. rewrite Ei, Ew, Ehh, Ec, lookup_insert.
    case_decide as Hn.
    + intros [= <-]. subst n. rewrite !sload_insert_eq.
      repeat split; [lia | lia | done].
    + intros Hj. destruct (Hl _ _ Hj) as (H1 & H2 & H3 & H4 & H5).
      rewrite !sload_insert_ne; [repeat split; (lia || done) | |].
      * intros E. rewrite <- E, Fh in H4. lia.
      * intros E. rewrite <- E, Fw in H3. lia.
  - intros a n. rewrite Ei, Ew, sload_insert.
    case_decide as Ho.
    + intros <- _. exists i. by rewrite lookup_insert_eq.
    + intros Hn Hnz. destruct (Hw _ _ Hn Hnz) as (j & Hj & Hoj).
      exists j. split; [|done]. rewrite lookup_insert_ne; [done|].
      destruct (Hl _ _ Hj) as (_ & Hle & _). lia.
  - intros h n. rewrite Ei, Ehh, sload_insert.
    case_decide as Ho.
    + intros <- _. exists i. by rewrite lookup_insert_eq.
    + intros Hn Hnz. destruct (Hh _ _ Hn Hnz) as (j & Hj & Hoj).
      exists j. split; [|done]. rewrite lookup_insert_ne; [done|].
      destruct (Hl _ _ Hj) as (_ & Hle & _). lia.
Qed.

(** Rewriting the record stored under [n] without touching its owner or
    fingerprint, leaving it verified. *)
Lemma Inv_rewrite n (i i' : Identity.t) :
  identities s !! n = Some i →
  Identity.owner i' = Identity.owner i →
  Identity.uniqueIdentityHash i' = Identity.uniqueIdentityHash i →
  Identity.isVerified i' = true →
  verifiers s' = verifiers s → adminWallet s' = adminWallet s →
  idCounter s' = idCounter s →
  identities s' = <[n := i']> (identities s) →
  walletToId s' = walletToId s → hashToId s' = hashToId s →
  Inv s'.
Proof.
  destruct HI as [Ha Hl Hw Hh]. intros Hn Eo Eh Vi Ev Ea Ec Ei Ew Ehh.
  destruct (Hl _ _ Hn) as (H1 & H2 & H3 & H4 & H5).
  split; red.
  - by rewrite Ev, Ea.
  - intros m j. rewrite Ei, Ew, Ehh, Ec, lookup_insert.
    case_decide as Hm.
    + intros [= <-]. subst m. by rewrite Eo, Eh.
    + apply Hl.
  - intros a m. rewrite Ei, Ew. intros Hm Hnz.
    destruct (Hw _ _ Hm Hnz) as (j & Hj & Hoj).
    rewrite lookup_insert. case_decide as Hd.
    + subst m. exists i'. split; [done|]. congruence.
    + by exists j.
  - intros h m. rewrite Ei, Ehh. intros Hm Hnz.
    destruct (Hh _ _ Hm Hnz) as (j & Hj & Hoj).
    rewrite lookup_insert. case_decide as Hd.
    + subst m. exists i'. split; [done|]. congruence.
    + by exists j.
Qed.

(** Revoking the record stored under [n]: both index entries are zeroed
    and the record is deleted. *)
Lemma Inv_revoke n (i : Identity.t) :
  identities s !! n = Some i →
  verifiers s' = verifiers s → adminWallet s' = adminWallet s →
  idCounter s' = idCounter s →
  identities s' = delete n (identities s) →
  walletToId s' = <[Identity.owner i := 0]> (walletToId s) →
  hashToId s' = <[Identity.uniqueIdentityHash i := 0]> (hashToId s) →
  Inv s'.
Proof.
  destruct HI as [Ha Hl Hw Hh]. intros Hn Ev Ea Ec Ei Ew Ehh.
  destruct (Hl _ _ Hn) as (H1 & H2 & H3 & H4 & H5).
  split; red.
  - by rewrite Ev, Ea.
  - intros m j. rewrite Ei, Ew, Ehh, Ec, lookup_delete.
    case_decide as Hm; [done|]. intros Hj.
    destruct (Hl _ _ Hj) as (G1 & G2 & G3 & G4 & G5).
    rewrite !sload_insert_ne; [done | |]; congruence.
  - intros a m. rewrite Ei, Ew, sload_insert.
    case_decide as Ho; [by intros <- |]. intros Hm Hnz.
    destruct (Hw _ _ Hm Hnz) as (j & Hj & Hoj).
    exists j. split; [|done]. rewrite lookup_delete_ne; [done|].
    intros E. rewrite <- E, Hn in Hj. congruence.
  - intros h m. rewrite Ei, Ehh, sload_insert.
    case_decide as Ho; [by intros <- |]. intros Hm Hnz.
    destruct (Hh _ _ Hm Hnz) as (j & Hj & Hoj).
    exists j. split; [|done]. rewrite lookup_delete_ne; [done|].
    intros E. rewrite <- E, Hn in Hj. congruence.
Qed.
End InvariantSteps.

(** ** The invariant holds in every reachable state *)

Lemma constructor_Inv env a s : constructor env a genesis = Ok tt s → Inv s.
Proof.
  unfold constructor. tx_unfold. intros Hrun. tx_cases.
  split; red; simpl.
  - by rewrite sload_insert_eq.
  - intros n i. by rewrite lookup_empty.
  - intros ? ? <-. unfold sload. by rewrite lookup_empty.
  - intros ? ? <-. unfold sload. by rewrite lookup_empty.
Qed.

Ltac unfold_entry H :=
  unfold changeAdmin, requestIdentity, approveIDRequest, rejectIDRequest,
    createIdentity, verifyIdentity, revokeIdentity, updateIdentityData,
    addVerifier, removeVerifier in H.

Ltac inv_mint s :=
  eapply (Inv_mint s);
    [done | | | | reflexivity | reflexivity | reflexivity | reflexivity
     | reflexivity | reflexivity ]; simpl.

Lemma dispatch_Inv env c s v s' :
  dispatch env c s = Ok v s' → Inv s → Inv s'.
Proof.
  intros Hrun HI.
  destruct c; simpl in Hrun; unfold_entry Hrun; tx_unfold; tx_cases;
    bool_facts.
  - (* transferOwnership *) by apply (Inv_frame s).
  - (* renounceOwnership *) by apply (Inv_frame s).
  - (* changeAdmin, new verifier *)
    apply (Inv_roles s); [done | | done..].
    red; simpl. by rewrite sload_insert_eq.
  - (* changeAdmin, already a verifier *)
    apply (Inv_roles s); [done | | done..]. done.
  - (* requestIdentity *) by apply (Inv_frame s).
  - (* approveIDRequest, expiring *) by inv_mint s.
  - (* approveIDRequest, no expiry *)
    by inv_mint s.
  - (* rejectIDRequest *) by apply (Inv_frame s).
  - (* createIdentity, expiring *)
    by inv_mint s.
  - (* createIdentity, no expiry *)
    by inv_mint s.
  - (* verifyIdentity *)
    eapply (Inv_rewrite s); [done | by apply owner_lookup | ..];
      [| | | done..]; done.
  - (* revokeIdentity *)
    eapply (Inv_revoke s); [done | by apply owner_lookup | done..].
  - (* updateIdentityData *)
    eapply (Inv_rewrite s); [done | by apply owner_lookup | ..];
      [| | | reflexivity..]; [done | done |].
    simpl. destruct HI as [_ Hl _ _].
    by destruct (Hl _ _ (owner_lookup _ _ Heqb)) as (_ & _ & _ & _ & ?).
  - (* addVerifier *)
    apply (Inv_roles s); [done | | done..].
    red; simpl. rewrite sload_insert. case_decide; [done | apply HI].
  - (* removeVerifier *)
    apply (Inv_roles s); [done | | done..].
    red; simpl. rewrite sload_insert_ne; [apply HI | done].
Qed.

Lemma step_Inv env c s : Inv s → Inv (step env c s).
Proof.
  intros HI. unfold step, transact, call.
  destruct (dispatch env c s) as [v s'|e s'] eqn:Hrun; simpl; [|done].
  by eapply dispatch_Inv.
Qed.

Lemma reachable_Inv s : reachable s → Inv s.
Proof.
  induction 1 as [env a s Hd | env c s _ IH].
  - by eapply constructor_Inv.
  - by apply step_Inv.
Qed.


Lemma reachable_deployed deployer admin :
  deployer ≠ 0 → reachable (deployed deployer admin).
Proof.
  intros Hne. apply (reachable_deploy (mkEnv deployer 0) admin).
  unfold deployed, call, constructor. tx_unfold. simpl.
  destruct (deployer =? 0) eqn:E; [by apply N.eqb_eq in E|done].
Qed.

Lemma reachable_run txs s : reachable s → reachable (run txs s).
Proof.
  revert s. induction txs as [|[env c] rest IH]; intros s Hs; simpl; [done|].
  apply IH. by constructor.
Qed.

(** ** Validity check *)

(** C4. [isIdentityValid] never reverts and writes nothing; it answers true
    exactly when an identity exists under the number, is verified, and has
    no expiry (zero) or an expiry not before the current time.  In
    particular the answer is false, not an error, for a number without an
    identity, for an unverified identity and for one whose positive expiry
    is in the past. *)
Theorem isIdentityValid_spec (env : Env) (idNumber : uint256) (s : State) :
  let i := sload (identities s) idNumber in
  ∃ b, call (isIdentityValid env idNumber) s = (inr b, s) ∧
    (b = true ↔
       exists_identity s idNumber ∧ Identity.isVerified i = true ∧
       (Identity.expiresAt i = 0 ∨ block_timestamp env ≤ Identity.expiresAt i))
    ∧ (¬ exists_identity s idNumber → b = false)
    ∧ (Identity.isVerified i = false → b = false)
    ∧ (0 < Identity.expiresAt i ∧ Identity.expiresAt i < block_timestamp env →
       b = false).
Proof.
  intros i. unfold call, isIdentityValid, exists_identity. tx_unfold.
  fold i. tx_cases; bool_facts; eexists; (split; [reflexivity|]).
  all: repeat split; try done; try lia; try tauto.
  all: try (intros (? & ? & ?)); try congruence; try lia.
  all: try (intros []; lia).
  all: apply andb_false_iff in Heqb1; destruct Heqb1; bool_facts.
  all: try (intros []); lia.
Qed.

(** ** Requests *)

(** C10. The [idType] argument of [requestIdentity] has no influence: two
    calls that differ only in it return the same value (or the same error)
    and leave the same storage, event log included, so no later transaction
    or query can tell them apart. *)
Theorem requestIdentity_ignores_idType (env : Env) (ipfsHash : string)
    (idType1 idType2 : string) (uniqueHash : bytes32) (s : State) :
  transact env (RequestIdentity ipfsHash idType1 uniqueHash) s =
    transact env (RequestIdentity ipfsHash idType2 uniqueHash) s
  ∧ ∀ later,
      run later (step env (RequestIdentity ipfsHash idType1 uniqueHash) s) =
        run later (step env (RequestIdentity ipfsHash idType2 uniqueHash) s).
Proof. split; [reflexivity | intros later; reflexivity]. Qed.

(** What a successful [approveIDRequest] has checked and written. *)
Lemma approveIDRequest_Ok env requestId d s idNumber s' :
  approveIDRequest env requestId d s = Ok idNumber s' →
  let r := sload (idRequests s) requestId in
  msg_sender env = adminWallet s ∧
  IDRequest.requester r ≠ 0 ∧
  IDRequest.isPending r = true ∧
  sload (walletToId s) (IDRequest.requester r) = 0 ∧
  sload (hashToId s) (IDRequest.uniqueIdentityHash r) = 0 ∧
  idNumber = idCounter s + 1 ∧
  s' = log (IdentityCreated idNumber (IDRequest.requester r) "personal_id"
              (IDRequest.uniqueIdentityHash r))
        (log (IDRequestApproved requestId idNumber (msg_sender env))
        (upd_idRequests (<[requestId :=
            IDRequest.set_isApproved true (IDRequest.set_isPending false r)]>)
        (upd_hashToId (<[IDRequest.uniqueIdentityHash r := idNumber]>)
        (upd_walletToId (<[IDRequest.requester r := idNumber]>)
        (upd_identities (<[idNumber :=
            Identity.mk (IDRequest.requester r) (IDRequest.ipfsHash r)
              (block_timestamp env) (expiresAtOf env d) true "personal_id"
              (IDRequest.uniqueIdentityHash r)]>)
        (set_idCounter idNumber s)))))).
Proof.
  unfold approveIDRequest, expiresAtOf. tx_unfold. intros Hrun.
  tx_cases; bool_facts; repeat split; try done.
  all: unfold upd_idRequests, log; simpl; f_equal.
  all: by rewrite sload_insert_eq, insert_insert_eq.
Qed.



(** ** Roles *)

(** C9. In every reachable state the admin is a verifier, and every further
    transaction keeps it so: the constructor and [changeAdmin] grant the
    status, [removeVerifier] refuses to take it from the admin. *)
Theorem admin_always_verifier (s : State) :
  reachable s →
  sload (verifiers s) (adminWallet s) = true ∧
  ∀ env c,
    sload (verifiers (step env c s)) (adminWallet (step env c s)) = true.
Proof.
  intros Hs. split.
  - apply (reachable_Inv s Hs).
  - intros env c. apply (step_Inv env c s (reachable_Inv s Hs)).
Qed.

(** After the owner has made account 3 the admin. *)
Lemma admin_always_verifier_witness :
  sload (verifiers (step (mkEnv 1 5) (ChangeAdmin 3) (deployed 1 2))) 3 = true.
Proof.
  refine (proj1 (admin_always_verifier
                   (step (mkEnv 1 5) (ChangeAdmin 3) (deployed 1 2)) _)).
  apply reachable_step, reachable_deployed. lia.
Defined.

(** ** Verification *)

(** C8. In every reachable state [verifyIdentity] reverts for every caller
    and every number: with an authorization error when the caller is not a
    verifier, with not-found when no identity exists under the number, and
    otherwise with an invalid-state error, the identity being verified
    already. *)
Theorem verifyIdentity_never_succeeds (s : State) (env : Env)
    (idNumber : uint256) :
  reachable s →
  (∀ s', verifyIdentity env idNumber s ≠ Ok tt s') ∧
  (sload (verifiers s) (msg_sender env) = false →
     fails_with (verifyIdentity env idNumber) s
       (Reason "BlockID: caller is not a verifier") AuthorizationError) ∧
  (sload (verifiers s) (msg_sender env) = true →
   ¬ exists_identity s idNumber →
     fails_with (verifyIdentity env idNumber) s
       (Reason "BlockID: identity does not exist") NotFoundError) ∧
  (sload (verifiers s) (msg_sender env) = true →
   exists_identity s idNumber →
     fails_with (verifyIdentity env idNumber) s
       (Reason "BlockID: identity already verified") InvalidStateError).
Proof.
  intros Hs. destruct (reachable_Inv s Hs) as [_ Hl _ _].
  assert (Hver : exists_identity s idNumber →
                 Identity.isVerified (sload (identities s) idNumber) = true).
  { intros Hex. apply owner_lookup in Hex.
    by destruct (Hl _ _ Hex) as (_ & _ & _ & _ & ?). }
  unfold fails_with, call, verifyIdentity, exists_identity in *. tx_unfold.
  split; [|split; [|split]].
  - intros s'. tx_cases; bool_facts; try done.
    rewrite (Hver Heqb0) in Heqb1. discriminate.
  - by intros ->.
  - intros -> Hno. tx_cases; bool_facts; done.
  - intros -> Hex. rewrite (Hver Hex). tx_cases; bool_facts; done.
Qed.

(** The verifier 2 tries to verify the identity of [minted_while_pending]. *)
Lemma verifyIdentity_never_succeeds_witness :
  fails_with (verifyIdentity (mkEnv 2 30) 1) minted_while_pending
    (Reason "BlockID: identity already verified") InvalidStateError.
Proof.
  refine (proj2 (proj2 (proj2 (verifyIdentity_never_succeeds
            minted_while_pending (mkEnv 2 30) 1 _))) _ _).
  - apply reachable_run, reachable_deployed. lia.
  - reflexivity.
  - vm_compute. discriminate.
Defined.

(** ** Atomicity *)

(** Every [require] of every entry point is evaluated before the first
    write: a run that reverts with anything but an arithmetic panic has not
    touched the storage.  (The panic of the expiry addition in
    [approveIDRequest] and [createIdentity] comes after the identity counter
    was incremented.) *)
Lemma guards_precede_writes env c s e s_at :
  dispatch env c s = Revert e s_at → (∀ code, e ≠ Panic code) → s_at = s.
Proof.
  intros Hrun Hnp.
  destruct c; simpl in Hrun; unfold_entry Hrun; tx_unfold; tx_cases;
    try done; by destruct (Hnp 17).
Qed.

(** C7. Every state-changing entry point is atomic: when a transaction
    raises an error, the storage after it (ledgers, indexes, roles, counters
    and event log) is the storage before it.  Moreover, unless the error is
    an arithmetic panic, the run had written nothing when it stopped. *)
Theorem failed_call_changes_nothing (env : Env) (c : Call) (s : State)
    (e : Error) :
  fst (transact env c s) = inl e →
  snd (transact env c s) = s ∧
  ∃ s_at, dispatch env c s = Revert e s_at ∧
          ((∀ code, e ≠ Panic code) → s_at = s).
Proof.
  unfold transact, call.
  destruct (dispatch env c s) as [v s'|e' s'] eqn:Hrun; simpl; [done|].
  intros [= ->]. split; [done|]. exists s'. split; [done|].
  by apply (guards_precede_writes env c).
Qed.

(** A second approval of the request of [one_request] is refused and
    changes nothing. *)
Lemma failed_call_changes_nothing_witness :
  snd (transact (mkEnv 2 21) (ApproveIDRequest 1 0)
         (step (mkEnv 2 20) (ApproveIDRequest 1 0) one_request)) =
    step (mkEnv 2 20) (ApproveIDRequest 1 0) one_request.
Proof.
  exact (proj1 (failed_call_changes_nothing (mkEnv 2 21) (ApproveIDRequest 1 0)
                  (step (mkEnv 2 20) (ApproveIDRequest 1 0) one_request)
                  (Reason "BlockID: request is not pending") eq_refl)).
Defined.

(** ** Submitting a request *)

(** When none of its guards fires and the counter can still be incremented,
    [requestIdentity] succeeds with the next request number. *)
Lemma requestIdentity_succeeds env ipfsHash idType uniqueHash s :
  sload (walletToId s) (msg_sender env) = 0 →
  sload (hashToId s) uniqueHash = 0 →
  pendingWith s uniqueHash (sload (userRequests s) (msg_sender env)) = false →
  requestCounter s < MAX_UINT256 →
  requestIdentity env ipfsHash idType uniqueHash s =
    Ok (requestCounter s + 1)
       (log (IDRequested (requestCounter s + 1) (msg_sender env) uniqueHash)
       (upd_userRequests (fun m =>
          <[msg_sender env :=
              sload m (msg_sender env) ++ [requestCounter s + 1]]> m)
       (upd_idRequests (<[requestCounter s + 1 :=
          IDRequest.mk (msg_sender env) ipfsHash (block_timestamp env)
            uniqueHash true false false]>)
       (set_requestCounter (requestCounter s + 1) s)))).
Proof.
  intros Hw Hh Hp Hc. unfold requestIdentity. tx_unfold.
  tx_cases; bool_facts; try done; try congruence; lia.
Qed.

(** With the request counter at the largest [uint256] the increment
    panics, after all guards have passed. *)
Lemma requestIdentity_overflows env ipfsHash idType uniqueHash s :
  sload (walletToId s) (msg_sender env) = 0 →
  sload (hashToId s) uniqueHash = 0 →
  pendingWith s uniqueHash (sload (userRequests s) (msg_sender env)) = false →
  MAX_UINT256 ≤ requestCounter s →
  requestIdentity env ipfsHash idType uniqueHash s = Revert (Panic 17) s.
Proof.
  intros Hw Hh Hp Hc. unfold requestIdentity. tx_unfold.
  tx_cases; bool_facts; try done; try congruence; lia.
Qed.

(** One transaction raises the request counter by at most one. *)
Lemma step_requestCounter env c s :
  requestCounter (step env c s) ≤ requestCounter s + 1.
Proof.
  unfold step, transact, call.
  destruct (dispatch env c s) as [v s'|e s'] eqn:Hrun; simpl; [|lia].
  destruct c; simpl in Hrun; unfold_entry Hrun; tx_unfold; tx_cases;
    simpl; lia.
Qed.

Lemma run_requestCounter txs s :
  requestCounter (run txs s) ≤ requestCounter s + N.of_nat (length txs).
Proof.
  revert s. induction txs as [|[env c] rest IH]; intros s; simpl; [lia|].
  pose proof (IH (step env c s)). pose proof (step_requestCounter env c s).
  lia.
Qed.

(** C3.  [requestIdentity] fails as a duplicate identity when the caller
    owns an identity, as a duplicate fingerprint when the fingerprint is
    bound to an identity, and as a duplicate pending request when a request
    in the caller's own list is pending with the fingerprint, the checks
    being made in this order.  Otherwise it succeeds: it stores a pending
    request under the next number (1 for the first request, 0 being the
    sentinel), appends that number to the caller's list and touches nothing
    else but the event log.  Success presupposes that the request counter
    is below the largest [uint256], which it is in every state the contract
    reaches in fewer than 2^256 - 1 transactions. *)
Theorem requestIdentity_cases (env : Env) (ipfsHash idType : string)
    (uniqueHash : bytes32) (s : State) :
  let a := msg_sender env in
  let m := requestIdentity env ipfsHash idType uniqueHash in
  let rid := requestCounter s + 1 in
  (sload (walletToId s) a ≠ 0 →
     fails_with m s (Reason "BlockID: wallet already has an ID")
       DuplicateIdentityError) ∧
  (sload (walletToId s) a = 0 → sload (hashToId s) uniqueHash ≠ 0 →
     fails_with m s
       (Reason "BlockID: identity with this hash already exists")
       DuplicateFingerprintError) ∧
  (sload (walletToId s) a = 0 → sload (hashToId s) uniqueHash = 0 →
   pendingWith s uniqueHash (sload (userRequests s) a) = true →
     fails_with m s
       (Reason "BlockID: a request with this hash is already pending")
       DuplicatePendingRequestError) ∧
  (sload (walletToId s) a = 0 → sload (hashToId s) uniqueHash = 0 →
   pendingWith s uniqueHash (sload (userRequests s) a) = false →
   requestCounter s < MAX_UINT256 →
     ∃ s', call m s = (inr rid, s') ∧
       requestCounter s' = rid ∧
       sload (idRequests s') rid =
         IDRequest.mk a ipfsHash (block_timestamp env) uniqueHash
                      true false false ∧
       (∀ r, r ≠ rid → sload (idRequests s') r = sload (idRequests s) r) ∧
       sload (userRequests s') a = sload (userRequests s) a ++ [rid] ∧
       (∀ b, b ≠ a → sload (userRequests s') b = sload (userRequests s) b) ∧
       events s' = events s ++ [IDRequested rid a uniqueHash] ∧
       identities s' = identities s ∧ walletToId s' = walletToId s ∧
       hashToId s' = hashToId s ∧ idCounter s' = idCounter s) ∧
  (∀ env0 admin s0,
     constructor env0 admin genesis = Ok tt s0 → requestCounter s0 = 0) ∧
  (∀ env0 admin s0 txs,
     constructor env0 admin genesis = Ok tt s0 →
     N.of_nat (length txs) < MAX_UINT256 →
     requestCounter (run txs s0) < MAX_UINT256).
Proof.
  intros a m rid. subst a m rid.
  assert (Hzero : ∀ env0 admin s0,
            constructor env0 admin genesis = Ok tt s0 → requestCounter s0 = 0).
  { intros env0 admin s0. unfold constructor. tx_unfold. intros Hrun.
    by tx_cases. }
  split; [|split; [|split; [|split; [|split]]]].
  - intros Hw. unfold fails_with, call, requestIdentity. tx_unfold.
    tx_cases; bool_facts; done.
  - intros Hw Hh. unfold fails_with, call, requestIdentity. tx_unfold.
    tx_cases; bool_facts; done.
  - intros Hw Hh Hp. unfold fails_with, call, requestIdentity. tx_unfold.
    tx_cases; bool_facts; try done; congruence.
  - intros Hw Hh Hp Hc. eexists. unfold call.
    rewrite (requestIdentity_succeeds _ _ _ _ _ Hw Hh Hp Hc).
    split; [reflexivity|]. simpl. rewrite !sload_insert_eq.
    repeat split; try done.
    + intros r Hr. by rewrite sload_insert_ne.
    + intros b Hb. by rewrite sload_insert_ne.
  - exact Hzero.
  - intros env0 admin s0 txs Hdep Hlen.
    pose proof (run_requestCounter txs s0) as Hle.
    rewrite (Hzero _ _ _ Hdep) in Hle. lia.
Qed.

(** The second request of account 5 with the fingerprint of its pending
    one. *)
Lemma requestIdentity_cases_witness :
  fails_with (requestIdentity (mkEnv 5 11) "Qm" "passport" 7) one_request
    (Reason "BlockID: a request with this hash is already pending")
    DuplicatePendingRequestError.
Proof.
  exact (proj1 (proj2 (proj2
           (requestIdentity_cases (mkEnv 5 11) "Qm" "passport" 7 one_request)))
           eq_refl eq_refl eq_refl).
Defined.

(** ** Removing a verifier *)

(** C6, as the contract has it.  [removeVerifier] on the admin address or on
    the owner address always reverts and leaves the storage, the verifier
    set included, as it was.  The error is an authorization error when the
    caller is not the admin or the address is a verifier, which the admin
    address is in every reachable state.  When the admin calls it on an
    address that is not a verifier, the membership check, which comes
    first, rejects the call as "not a verifier". *)
Theorem removeVerifier_protected (env : Env) (verifier : address)
    (s : State) :
  verifier = adminWallet s ∨ verifier = _owner s →
  ∃ e, call (removeVerifier env verifier) s = (inl e, s) ∧
    (msg_sender env ≠ adminWallet s ∨ sload (verifiers s) verifier = true →
       kindOf e = Some AuthorizationError) ∧
    (msg_sender env = adminWallet s → sload (verifiers s) verifier = false →
       e = Reason "BlockID: not a verifier") ∧
    (reachable s → verifier = adminWallet s →
       kindOf e = Some AuthorizationError).
Proof.
  intros Hprot.
  assert (Hadm : reachable s → verifier = adminWallet s →
                 sload (verifiers s) verifier = true).
  { intros Hs ->. apply (reachable_Inv s Hs). }
  unfold call, removeVerifier. tx_unfold.
  tx_cases; bool_facts; try (exfalso; destruct Hprot; congruence).
  all: eexists; (split; [reflexivity|]).
  all: split; [|split]; try done.
  - intros [|]; congruence.
  - intros Hs Hv. specialize (Hadm Hs Hv). congruence.
Qed.

(** The admin 2 tries to remove itself right after deployment. *)
Lemma removeVerifier_protected_witness :
  ∃ e, call (removeVerifier (mkEnv 2 6) 2) (deployed 1 2) =
         (inl e, deployed 1 2) ∧
       kindOf e = Some AuthorizationError.
Proof.
  destruct (removeVerifier_protected (mkEnv 2 6) 2 (deployed 1 2)
              (or_introl eq_refl)) as (e & Hcall & Hkind & _).
  exists e. split; [exact Hcall|]. apply Hkind. right. reflexivity.
Defined.

(** C6, as stated, fails: once the ownership has moved to account 3, which
    is no verifier, the admin's [removeVerifier] on the owner address is
    rejected by the membership check, not by an authorization check. *)
Lemma removeVerifier_owner_not_verifier :
  reachable ownership_moved ∧
  _owner ownership_moved = 3 ∧
  adminWallet ownership_moved = 2 ∧
  call (removeVerifier (mkEnv 2 6) 3) ownership_moved =
    (inl (Reason "BlockID: not a verifier"), ownership_moved) ∧
  kindOf (Reason "BlockID: not a verifier") ≠ Some AuthorizationError.
Proof.
  split; [apply reachable_step, reachable_deployed; lia|].
  vm_compute. repeat split; discriminate.
Qed.

(** ** Revocation and re-creation *)

(** What a successful [revokeIdentity] has checked and written. *)
Lemma revokeIdentity_Ok env idNumber s s1 :
  revokeIdentity env idNumber s = Ok tt s1 →
  let i := sload (identities s) idNumber in
  exists_identity s idNumber ∧
  s1 = log (IdentityRevoked idNumber (msg_sender env))
        (upd_identities (delete idNumber)
        (upd_hashToId (<[Identity.uniqueIdentityHash i := 0]>)
        (upd_walletToId (<[Identity.owner i := 0]>) s))).
Proof.
  unfold revokeIdentity, exists_identity. tx_unfold. intros Hrun.
  tx_cases; bool_facts. done.
Qed.

(** Direct creation by the admin succeeds for a free wallet and a free
    fingerprint, while the identity counter can be incremented and the
    expiry fits a [uint256]. *)
Lemma createIdentity_succeeds env owner ipfsHash d idType uniqueHash s :
  msg_sender env = adminWallet s →
  sload (walletToId s) owner = 0 →
  sload (hashToId s) uniqueHash = 0 →
  idCounter s < MAX_UINT256 →
  d = 0 ∨ block_timestamp env + d ≤ MAX_UINT256 →
  createIdentity env owner ipfsHash d idType uniqueHash s =
    Ok (idCounter s + 1)
       (log (IdentityCreated (idCounter s + 1) owner idType uniqueHash)
       (upd_hashToId (<[uniqueHash := idCounter s + 1]>)
       (upd_walletToId (<[owner := idCounter s + 1]>)
       (upd_identities (<[idCounter s + 1 :=
          Identity.mk owner ipfsHash (block_timestamp env)
            (expiresAtOf env d) true idType uniqueHash]>)
       (set_idCounter (idCounter s + 1) s))))).
Proof.
  intros Ha Hw Hh Hc Hd. unfold createIdentity, expiresAtOf. tx_unfold.
  tx_cases; bool_facts; try done; try congruence; lia.
Qed.

(** Approval by the admin succeeds for a pending request whose requester
    has no identity and whose fingerprint is free, under the same
    arithmetic conditions. *)
Lemma approveIDRequest_succeeds env requestId d s :
  let r := sload (idRequests s) requestId in
  msg_sender env = adminWallet s →
  IDRequest.requester r ≠ 0 →
  IDRequest.isPending r = true →
  sload (walletToId s) (IDRequest.requester r) = 0 →
  sload (hashToId s) (IDRequest.uniqueIdentityHash r) = 0 →
  idCounter s < MAX_UINT256 →
  d = 0 ∨ block_timestamp env + d ≤ MAX_UINT256 →
  ∃ s', approveIDRequest env requestId d s = Ok (idCounter s + 1) s'.
Proof.
  intros r Ha Hr Hp Hw Hh Hc Hd. subst r.
  unfold approveIDRequest. tx_unfold.
  tx_cases; bool_facts; try (eexists; reflexivity); try congruence; lia.
Qed.

(** C5, as the contract has it.  A successful [revokeIdentity] of an
    identity owned by [a] with fingerprint [f] zeroes both index entries and
    deletes the record.  Right after it, direct creation by the admin for
    [a] and [f] succeeds, and so does a new request by [a] with [f] followed
    by its approval, each minting under a number never used before,
    provided the counters can still be incremented and the expiry fits a
    [uint256]; the new request, moreover, needs [a] to have no request
    pending with [f]. *)
Theorem revoke_frees_wallet_and_fingerprint (env : Env)
    (idNumber : uint256) (s s1 : State) :
  reachable s →
  revokeIdentity env idNumber s = Ok tt s1 →
  let a := Identity.owner (sload (identities s) idNumber) in
  let f := Identity.uniqueIdentityHash (sload (identities s) idNumber) in
  let fresh := idCounter s1 + 1 in
  (exists_identity s idNumber ∧
   sload (walletToId s1) a = 0 ∧ sload (hashToId s1) f = 0 ∧
   identities s1 !! idNumber = None ∧ ¬ exists_identity s1 idNumber ∧
   idNumber < fresh ∧ identities s1 !! fresh = None) ∧
  (∀ env2 ipfsHash d idType,
     msg_sender env2 = adminWallet s1 →
     idCounter s1 < MAX_UINT256 →
     d = 0 ∨ block_timestamp env2 + d ≤ MAX_UINT256 →
     ∃ s2, createIdentity env2 a ipfsHash d idType f s1 = Ok fresh s2 ∧
           Identity.owner (sload (identities s2) fresh) = a ∧
           Identity.uniqueIdentityHash (sload (identities s2) fresh) = f) ∧
  (∀ env2 env3 ipfsHash idType d,
     msg_sender env2 = a →
     pendingWith s1 f (sload (userRequests s1) a) = false →
     requestCounter s1 < MAX_UINT256 →
     msg_sender env3 = adminWallet s1 →
     idCounter s1 < MAX_UINT256 →
     d = 0 ∨ block_timestamp env3 + d ≤ MAX_UINT256 →
     ∃ s2 s3,
       requestIdentity env2 ipfsHash idType f s1 =
         Ok (requestCounter s1 + 1) s2 ∧
       approveIDRequest env3 (requestCounter s1 + 1) d s2 = Ok fresh s3 ∧
       Identity.owner (sload (identities s3) fresh) = a ∧
       Identity.uniqueIdentityHash (sload (identities s3) fresh) = f).
Proof.
  intros Hs Hrev a f fresh.
  destruct (revokeIdentity_Ok _ _ _ _ Hrev) as [Hex Hs1].
  fold a f in Hs1.
  destruct (reachable_Inv s Hs) as [_ Hl _ _].
  destruct (Hl _ _ (owner_lookup _ _ Hex)) as (_ & Hle & _).
  assert (Hw1 : sload (walletToId s1) a = 0)
    by (subst s1; simpl; apply sload_insert_eq).
  assert (Hh1 : sload (hashToId s1) f = 0)
    by (subst s1; simpl; apply sload_insert_eq).
  assert (Hc1 : idCounter s1 = idCounter s) by (by subst s1).
  split; [|split].
  - repeat split; try done.
    + subst s1; simpl. apply lookup_delete_eq.
    + unfold exists_identity. subst s1; simpl.
      rewrite sload_delete. case_decide; [|done]. intros Hz. by apply Hz.
    + unfold fresh. lia.
    + subst s1; simpl. rewrite lookup_delete_ne by (unfold fresh; simpl; lia).
      destruct (identities s !! fresh) as [j|] eqn:Hj; [|done].
      destruct (Hl _ _ Hj) as (_ & Hle' & _). unfold fresh in Hle'.
      simpl in Hle'. lia.
  - intros env2 ipfsHash d idType Ha2 Hc Hd. eexists.
    rewrite (createIdentity_succeeds _ _ _ _ _ _ _ Ha2 Hw1 Hh1 Hc Hd).
    split; [reflexivity|]. simpl. by rewrite sload_insert_eq.
  - intros env2 env3 ipfsHash idType d Ha2 Hp Hrc Ha3 Hc Hd.
    rewrite <- Ha2 in Hw1, Hp.
    pose proof (requestIdentity_succeeds env2 ipfsHash idType f s1
                  Hw1 Hh1 Hp Hrc) as Hreq.
    destruct (approveIDRequest_succeeds env3 (requestCounter s1 + 1) d
                (log (IDRequested (requestCounter s1 + 1) (msg_sender env2) f)
                (upd_userRequests (fun m =>
                   <[msg_sender env2 :=
                       sload m (msg_sender env2) ++ [requestCounter s1 + 1]]>
                     m)
                (upd_idRequests (<[requestCounter s1 + 1 :=
                   IDRequest.mk (msg_sender env2) ipfsHash
                     (block_timestamp env2) f true false false]>)
                (set_requestCounter (requestCounter s1 + 1) s1)))))
      as [s3 Happ]; simpl; rewrite ?sload_insert_eq; simpl; try done.
    { by rewrite Ha2. }
    eexists _, s3. split; [exact Hreq|]. split; [exact Happ|].
    apply approveIDRequest_Ok in Happ. simpl in Happ.
    rewrite !sload_insert_eq in Happ. simpl in Happ.
    destruct Happ as (_ & _ & _ & _ & _ & _ & ->). simpl.
    by rewrite sload_insert_eq.
Qed.

(** Account 5 revokes its identity of [minted_while_pending]; the admin
    creates it again. *)
Lemma revoke_frees_wallet_and_fingerprint_witness :
  ∃ s2, createIdentity (mkEnv 2 13) 5 "Qm2" 0 "passport" 7
          revoked_while_pending = Ok 2 s2.
Proof.
  assert (Hs : reachable minted_while_pending)
    by (apply reachable_run, reachable_deployed; lia).
  destruct (proj1 (proj2 (revoke_frees_wallet_and_fingerprint (mkEnv 5 12) 1
              minted_while_pending revoked_while_pending Hs eq_refl))
              (mkEnv 2 13) "Qm2" 0 "passport" eq_refl)
    as (s2 & Hcreate & _).
  - vm_compute. reflexivity.
  - left. reflexivity.
  - exists s2. exact Hcreate.
Defined.

(** C5, as stated, fails: account 5 still has its request with fingerprint
    7 pending when its directly created identity is revoked, so its new
    request with that fingerprint is refused; and a direct creation whose
    expiry does not fit a [uint256] is refused by the overflow check. *)
Lemma recreation_after_revoke_refused :
  reachable minted_while_pending ∧
  Identity.owner (sload (identities minted_while_pending) 1) = 5 ∧
  Identity.uniqueIdentityHash (sload (identities minted_while_pending) 1)
    = 7 ∧
  revokeIdentity (mkEnv 5 12) 1 minted_while_pending =
    Ok tt revoked_while_pending ∧
  call (requestIdentity (mkEnv 5 13) "Qm" "passport" 7)
       revoked_while_pending =
    (inl (Reason "BlockID: a request with this hash is already pending"),
     revoked_while_pending) ∧
  call (createIdentity (mkEnv 2 13) 5 "Qm" MAX_UINT256 "passport" 7)
       revoked_while_pending =
    (inl (Panic 17), revoked_while_pending).
Proof.
  split; [apply reachable_run, reachable_deployed; lia|].
  vm_compute. repeat split.
Qed.

(** ** Ledger and indexes *)

(** In every reachable state: an address owns at most one identity, a
    fingerprint is bound to at most one identity, every existing identity is
    indexed under its owner and its fingerprint, and a non-zero index entry
    points to a stored record with that owner or fingerprint. *)
Lemma ledger_and_indexes_agree s :
  reachable s →
  (∀ n1 n2, exists_identity s n1 → exists_identity s n2 →
     Identity.owner (sload (identities s) n1) =
       Identity.owner (sload (identities s) n2) → n1 = n2) ∧
  (∀ n1 n2, exists_identity s n1 → exists_identity s n2 →
     Identity.uniqueIdentityHash (sload (identities s) n1) =
       Identity.uniqueIdentityHash (sload (identities s) n2) → n1 = n2) ∧
  (∀ n, exists_identity s n →
     sload (walletToId s) (Identity.owner (sload (identities s) n)) = n ∧
     sload (hashToId s)
       (Identity.uniqueIdentityHash (sload (identities s) n)) = n) ∧
  (∀ a n, sload (walletToId s) a = n → n ≠ 0 →
     Identity.owner (sload (identities s) n) = a) ∧
  (∀ h n, sload (hashToId s) h = n → n ≠ 0 →
     Identity.uniqueIdentityHash (sload (identities s) n) = h).
Proof.
  intros Hs. destruct (reachable_Inv s Hs) as [_ Hl Hw Hh].
  assert (Hidx : ∀ n, exists_identity s n →
            sload (walletToId s) (Identity.owner (sload (identities s) n)) = n
            ∧ sload (hashToId s)
                (Identity.uniqueIdentityHash (sload (identities s) n)) = n).
  { intros n Hn. apply owner_lookup in Hn.
    by destruct (Hl _ _ Hn) as (_ & _ & ? & ? & _). }
  repeat split.
  - intros n1 n2 H1 H2 E.
    destruct (Hidx _ H1) as [<- _]. destruct (Hidx _ H2) as [<- _].
    by rewrite E.
  - intros n1 n2 H1 H2 E.
    destruct (Hidx _ H1) as [_ <-]. destruct (Hidx _ H2) as [_ <-].
    by rewrite E.
  - by apply Hidx.
  - by apply Hidx.
  - intros a n Hn Hnz. destruct (Hw _ _ Hn Hnz) as (i & Hi & <-).
    by rewrite (sload_Some _ _ _ Hi).
  - intros h n Hn Hnz. destruct (Hh _ _ Hn Hnz) as (i & Hi & <-).
    by rewrite (sload_Some _ _ _ Hi).
Qed.

(** C1, where the contract breaks it.  [createIdentity] does not refuse the
    null address as owner.  The admin's call for it succeeds and sets both
    index entries to the new number 1, yet no identity exists under 1: the
    stored record has the null owner, which is how the contract recognises
    an absent identity.  The entries cannot be cleared again, since
    [revokeIdentity] refuses a number without identity, and the fingerprint
    stays bound. *)
Theorem null_owner_creation_breaks_indexes :
  reachable ghost_minted ∧
  call (createIdentity (mkEnv 2 10) 0 "Qm" 0 "passport" 7) (deployed 1 2) =
    (inr 1, ghost_minted) ∧
  sload (walletToId ghost_minted) 0 = 1 ∧
  sload (hashToId ghost_minted) 7 = 1 ∧
  ¬ exists_identity ghost_minted 1 ∧
  (∀ env, call (revokeIdentity env 1) ghost_minted =
            (inl (Reason "BlockID: identity does not exist"), ghost_minted)) ∧
  (∀ env ipfsHash idType, msg_sender env ≠ 0 →
     call (requestIdentity env ipfsHash idType 7) ghost_minted =
       (inl (Reason "BlockID: identity with this hash already exists"),
        ghost_minted)).
Proof.
  split; [apply reachable_step, reachable_deployed; lia|].
  split; [reflexivity|]. split; [reflexivity|]. split; [reflexivity|].
  split; [unfold exists_identity; vm_compute; by intros H|].
  split; [intros env; reflexivity|].
  intros env ipfsHash idType Hne. unfold call, requestIdentity. tx_unfold.
  assert (Hw : walletToId ghost_minted = <[0 := 1]> ∅) by reflexivity.
  assert (Hh : sload (hashToId ghost_minted) 7 = 1) by reflexivity.
  tx_cases; bool_facts; try done.
  all: (rewrite Hw, sload_insert_ne in Heqb by done; by destruct Heqb)
       || (rewrite Hh in Heqb0; discriminate).
Qed.

(** ** The list of pending requests *)

Lemma idsFrom_length from k : length (idsFrom from k) = k.
Proof. revert from. induction k as [|k IH]; intros from; simpl; [done|]. by rewrite IH. Qed.

Lemma elem_of_idsFrom from k i :
  i ∈ idsFrom from k ↔ from ≤ i ∧ i < from + N.of_nat k.
Proof.
  revert from. induction k as [|k IH]; intros from; simpl.
  - rewrite elem_of_nil. lia.
  - rewrite elem_of_cons, IH. lia.
Qed.

Lemma elem_of_idsUpTo n i : i ∈ idsUpTo n ↔ 1 ≤ i ∧ i ≤ n.
Proof. unfold idsUpTo. rewrite elem_of_idsFrom. lia. Qed.

Lemma idsFrom_sorted from k : StronglySorted N.lt (idsFrom from k).
Proof.
  revert from. induction k as [|k IH]; intros from; simpl; constructor.
  - apply IH.
  - apply Forall_forall. intros i Hi. apply elem_of_idsFrom in Hi. lia.
Qed.

Lemma pendingAmong_length s ids :
  (length (pendingAmong s ids) ≤ length ids)%nat.
Proof. apply length_filter. Qed.

(** The counting loop, while no [i++] overflows. *)
Lemma countPendingIn_eq s ids count :
  Forall (fun i => i < MAX_UINT256) ids →
  count + N.of_nat (length ids) ≤ MAX_UINT256 →
  countPendingIn ids count s =
    Ok (count + N.of_nat (length (pendingAmong s ids))) s.
Proof.
  revert count. induction ids as [|i rest IH]; intros count Hall Hfit.
  - simpl. unfold ret. f_equal. lia.
  - apply Forall_cons in Hall as [Hi Hall]. simpl in Hfit.
    simpl. unfold pendingAmong. rewrite filter_cons. tx_unfold.
    destruct (IDRequest.isPending (sload (idRequests s) i)) eqn:Hp.
    + rewrite decide_True by done.
      destruct (count + 1 <=? MAX_UINT256) eqn:E1;
        [|apply N.leb_gt in E1; lia].
      destruct (i + 1 <=? MAX_UINT256) eqn:E2;
        [|apply N.leb_gt in E2; lia].
      rewrite IH by (done || lia). simpl. f_equal. unfold pendingAmong. lia.
    + rewrite decide_False by (by intros ?).
      destruct (i + 1 <=? MAX_UINT256) eqn:E2;
        [|apply N.leb_gt in E2; lia].
      rewrite IH by (done || lia). done.
Qed.

(** The filling loop, while the array has room and nothing overflows. *)
Lemma fillPendingIn_eq s ids (pre rest : list N) :
  Forall (fun i => i < MAX_UINT256) ids →
  (length (pendingAmong s ids) ≤ length rest)%nat →
  N.of_nat (length pre + length rest) ≤ MAX_UINT256 →
  fillPendingIn ids (N.of_nat (length pre)) (pre ++ rest) s =
    Ok (pre ++ pendingAmong s ids
            ++ drop (length (pendingAmong s ids)) rest) s.
Proof.
  revert pre rest. induction ids as [|i ids IH]; intros pre rest Hall Hroom Hfit.
  - simpl. by rewrite drop_0.
  - apply Forall_cons in Hall as [Hi Hall].
    simpl. unfold pendingAmong in *. rewrite filter_cons in *.
    unfold storeAt. tx_unfold.
    destruct (IDRequest.isPending (sload (idRequests s) i)) eqn:Hp.
    + rewrite decide_True in * by done. simpl in Hroom.
      destruct rest as [|x rest]; simpl in Hroom; [lia|].
      rewrite length_app. simpl.
      destruct (N.of_nat (length pre) <? N.of_nat (length pre + S (length rest)))
        eqn:E0; [|apply N.ltb_ge in E0; lia].
      simpl in Hfit.
      destruct (N.of_nat (length pre) + 1 <=? MAX_UINT256) eqn:E1;
        [|apply N.leb_gt in E1; lia].
      destruct (i + 1 <=? MAX_UINT256) eqn:E2;
        [|apply N.leb_gt in E2; lia].
      rewrite Nat2N.id.
      replace (<[length pre := i]> (pre ++ x :: rest))
        with ((pre ++ [i]) ++ rest).
      2:{ rewrite insert_app_r_alt, Nat.sub_diag by lia. simpl.
          by rewrite <- app_assoc. }
      replace (N.of_nat (length pre) + 1) with (N.of_nat (length (pre ++ [i])))
        by (rewrite length_app; simpl; lia).
      rewrite IH; [| done | lia | rewrite length_app; simpl; lia].
      by rewrite <- app_assoc.
    + rewrite decide_False in * by (by intros ?).
      destruct (i + 1 <=? MAX_UINT256) eqn:E2;
        [|apply N.leb_gt in E2; lia].
      by rewrite IH.
Qed.

Lemma filter_sorted (P : N → Prop) `{∀ x, Decision (P x)} (l : list N) :
  StronglySorted N.lt l → StronglySorted N.lt (filter P l).
Proof.
  induction 1 as [|x l Hl IH Hx]; [constructor|].
  rewrite filter_cons. case_decide; [|done].
  constructor; [done|]. apply Forall_forall. intros y Hy.
  apply list_elem_of_filter in Hy as [_ Hy].
  rewrite Forall_forall in Hx. by apply Hx.
Qed.

(** The two loops of [getPendingRequests] agree: the array sized by the
    first is filled completely by the second. *)
Lemma getPendingRequests_run s :
  requestCounter s < MAX_UINT256 →
  getPendingRequests s = Ok (pendingAmong s (idsUpTo (requestCounter s))) s.
Proof.
  intros Hc. unfold getPendingRequests. tx_unfold.
  assert (Hall : Forall (fun i => i < MAX_UINT256) (idsUpTo (requestCounter s))).
  { apply Forall_forall. intros i Hi. apply elem_of_idsUpTo in Hi. lia. }
  assert (Hlen : length (idsUpTo (requestCounter s))
                 = N.to_nat (requestCounter s))
    by apply idsFrom_length.
  pose proof (pendingAmong_length s (idsUpTo (requestCounter s))) as Hle.
  rewrite countPendingIn_eq by (done || lia).
  rewrite N.add_0_l, Nat2N.id.
  pose proof (fillPendingIn_eq s (idsUpTo (requestCounter s)) []
                (replicate (length (pendingAmong s (idsUpTo (requestCounter s)))) 0)
                Hall) as Hfill.
  simpl in Hfill. change (N.of_nat 0) with 0 in Hfill.
  rewrite length_replicate in Hfill.
  rewrite Hfill by lia.
  rewrite drop_ge by (rewrite length_replicate; lia).
  by rewrite app_nil_r.
Qed.

(** X1. While the request counter is below the largest [uint256],
    [getPendingRequests] returns, without writing anything, exactly the
    numbers from 1 to the counter whose request is pending, in increasing
    order: the array sized by the first loop is filled completely by the
    second, which never runs out of bounds. *)
Theorem getPendingRequests_lists_pending (s : State) :
  requestCounter s < MAX_UINT256 →
  call getPendingRequests s =
    (inr (pendingAmong s (idsUpTo (requestCounter s))), s) ∧
  StronglySorted N.lt (pendingAmong s (idsUpTo (requestCounter s))) ∧
  ∀ id, id ∈ pendingAmong s (idsUpTo (requestCounter s)) ↔
        1 ≤ id ∧ id ≤ requestCounter s ∧
        IDRequest.isPending (sload (idRequests s) id) = true.
Proof.
  intros Hc. split; [|split].
  - unfold call. by rewrite getPendingRequests_run.
  - unfold pendingAmong. apply filter_sorted, idsFrom_sorted.
  - intros id. unfold pendingAmong.
    rewrite list_elem_of_filter, elem_of_idsUpTo. tauto.
Qed.

(** The request of [one_request] is listed. *)
Lemma getPendingRequests_lists_pending_witness :
  call getPendingRequests one_request = (inr [1], one_request).
Proof.
  exact (proj1 (getPendingRequests_lists_pending one_request eq_refl)).
Defined.

(** ** The request ledger in reachable states *)

Section RequestSteps.
Variables s s' : State.
Hypothesis HR : ReqInv s.

Lemma ReqInv_frame :
  requestCounter s' = requestCounter s → idRequests s' = idRequests s →
  userRequests s' = userRequests s → ReqInv s'.
Proof.
  destruct HR as [H1 H0 H2 H3 H4]. intros Ec Er Eu.
  split; rewrite ?Ec, ?Er, ?Eu; assumption.
Qed.

(** Storing a new pending request of [a] under the next number and listing
    it. *)
Lemma ReqInv_submit a (r : IDRequest.t) :
  IDRequest.requester r = a → one_status r →
  requestCounter s' = requestCounter s + 1 →
  idRequests s' = <[requestCounter s + 1 := r]> (idRequests s) →
  userRequests s' =
    <[a := sload (userRequests s) a ++ [requestCounter s + 1]]>
      (userRequests s) →
  ReqInv s'.
Proof.
  destruct HR as [H1 H0 H2 H3 H4]. intros Ea Hst Ec Er Eu.
  assert (Hfresh : idRequests s !! (requestCounter s + 1) = None).
  { destruct (idRequests s !! (requestCounter s + 1)) as [x|] eqn:E; [|done].
    apply H1 in E. lia. }
  split.
  - intros id x. rewrite Er, Ec, lookup_insert. case_decide as Hd.
    + intros _. lia.
    + intros Hx. apply H1 in Hx. lia.
  - intros id Hlo Hhi. rewrite Er, lookup_insert. case_decide as Hd; [done|].
    apply H0; [done|]. rewrite Ec in Hhi. lia.
  - intros id x. rewrite Er, lookup_insert. case_decide as Hd.
    + by intros [= <-].
    + apply H2.
  - intros b id. rewrite Eu, Er, sload_insert. case_decide as Hb.
    + subst b. rewrite elem_of_app, list_elem_of_singleton, H3.
      rewrite lookup_insert. split.
      * intros [(x & Hx & Hxa) | ->].
        -- exists x. case_decide; [congruence|done].
        -- exists r. case_decide; done.
      * intros (x & Hx & Hxa). case_decide; [by right|]. left. by exists x.
    + rewrite H3, lookup_insert. split.
      * intros (x & Hx & Hxa). exists x. case_decide; [congruence|done].
      * intros (x & Hx & Hxa). case_decide.
        -- injection Hx as <-. congruence.
        -- by exists x.
  - intros b. rewrite Eu, sload_insert. case_decide as Hb; [|apply H4].
    subst b. apply StronglySorted_app_2; [|apply H4|repeat constructor].
    intros x y Hx Hy. apply list_elem_of_singleton in Hy as ->.
    apply H3 in Hx as (x' & Hx' & _). apply H1 in Hx'. lia.
Qed.

(** Rewriting the stored request [r] under [id] into [r'], of the same
    requester. *)
Lemma ReqInv_resolve id (r r' : IDRequest.t) :
  idRequests s !! id = Some r →
  IDRequest.requester r' = IDRequest.requester r → one_status r' →
  requestCounter s' = requestCounter s →
  idRequests s' = <[id := r']> (idRequests s) →
  userRequests s' = userRequests s →
  ReqInv s'.
Proof.
  destruct HR as [H1 H0 H2 H3 H4]. intros Hr Ea Hst Ec Er Eu.
  split.
  - intros j x. rewrite Er, Ec, lookup_insert. case_decide as Hd.
    + intros _. subst j. by apply H1 in Hr.
    + apply H1.
  - intros j Hlo Hhi. rewrite Er, lookup_insert. case_decide as Hd; [done|].
    apply H0; [done|]. by rewrite <- Ec.
  - intros j x. rewrite Er, lookup_insert. case_decide as Hd.
    + by intros [= <-].
    + apply H2.
  - intros b j. rewrite Eu, Er, H3, lookup_insert. case_decide as Hd.
    + subst j. rewrite Hr. split.
      * intros (x & [= <-] & Hxa). exists r'. split; [done|congruence].
      * intros (x & [= <-] & Hxa). exists r. split; [done|congruence].
    + done.
  - intros b. rewrite Eu. apply H4.
Qed.
End RequestSteps.

Lemma requester_lookup (m : gmap N IDRequest.t) k :
  IDRequest.requester (sload m k) ≠ 0 → m !! k = Some (sload m k).
Proof.
  unfold sload. destruct (m !! k); simpl; [done|]. intros Hne. by destruct Hne.
Qed.

Lemma constructor_ReqInv env a s :
  constructor env a genesis = Ok tt s → ReqInv s.
Proof.
  unfold constructor. tx_unfold. intros Hrun. tx_cases.
  split; simpl.
  - intros id r. by rewrite lookup_empty.
  - intros id Hlo Hhi. lia.
  - intros id r. by rewrite lookup_empty.
  - intros b id. unfold sload. rewrite lookup_empty. simpl.
    rewrite elem_of_nil. split; [done|]. intros (r & Hr & _).
    by rewrite lookup_empty in Hr.
  - intros b. unfold sload. rewrite lookup_empty. constructor.
Qed.

Lemma dispatch_ReqInv env c s v s' :
  dispatch env c s = Ok v s' → ReqInv s → ReqInv s'.
Proof.
  intros Hrun HR.
  destruct c; simpl in Hrun; unfold_entry Hrun; tx_unfold; tx_cases;
    bool_facts; try (by apply (ReqInv_frame s)).
  - (* requestIdentity *)
    eapply (ReqInv_submit s); [done | reflexivity | | reflexivity
                               | reflexivity | reflexivity].
    left. done.
  - (* approveIDRequest, expiring *)
    pose proof (requester_lookup _ _ Heqb0) as Hr.
    destruct (req_status s HR _ _ Hr) as [(_ & Ha & Hj) | [(Hp & _) | (Hp & _)]];
      try congruence.
    eapply (ReqInv_resolve s); [done | exact Hr | | | reflexivity | | reflexivity].
    3:{ simpl. rewrite sload_insert_eq, insert_insert_eq. reflexivity. }
    + done.
    + right; left. simpl. done.
  - (* approveIDRequest, no expiry *)
    pose proof (requester_lookup _ _ Heqb0) as Hr.
    destruct (req_status s HR _ _ Hr) as [(_ & Ha & Hj) | [(Hp & _) | (Hp & _)]];
      try congruence.
    eapply (ReqInv_resolve s); [done | exact Hr | | | reflexivity | | reflexivity].
    3:{ simpl. rewrite sload_insert_eq, insert_insert_eq. reflexivity. }
    + done.
    + right; left. simpl. done.
  - (* rejectIDRequest *)
    pose proof (requester_lookup _ _ Heqb0) as Hr.
    destruct (req_status s HR _ _ Hr) as [(_ & Ha & Hj) | [(Hp & _) | (Hp & _)]];
      try congruence.
    eapply (ReqInv_resolve s); [done | exact Hr | | | reflexivity | | reflexivity].
    3:{ simpl. rewrite sload_insert_eq, insert_insert_eq. reflexivity. }
    + done.
    + right; right. simpl. done.
Qed.

Lemma reachable_ReqInv s : reachable s → ReqInv s.
Proof.
  induction 1 as [env a s Hd | env c s _ IH].
  - by eapply constructor_ReqInv.
  - unfold step, transact, call.
    destruct (dispatch env c s) as [v s'|e s'] eqn:Hrun; simpl; [|done].
    by eapply dispatch_ReqInv.
Qed.

(** X3. In every reachable state each request number from 1 to the request
    counter carries exactly one status (pending, approved or rejected),
    and every other number carries the empty record, which is not
    pending. *)
Theorem request_status_exclusive (s : State) (id : uint256) :
  reachable s →
  (1 ≤ id ∧ id ≤ requestCounter s → one_status (sload (idRequests s) id)) ∧
  (id = 0 ∨ requestCounter s < id → sload (idRequests s) id = zero).
Proof.
  intros Hs. pose proof (reachable_ReqInv s Hs) as HR. split.
  - intros [Hlo Hhi]. destruct (req_dense s HR id Hlo Hhi) as [r Hr].
    rewrite (sload_Some _ _ _ Hr). by apply (req_status s HR id).
  - intros Hout. apply sload_None.
    destruct (idRequests s !! id) as [r|] eqn:Hr; [|done].
    apply (req_range s HR) in Hr. lia.
Qed.

(** The request of [one_request] is pending and nothing else. *)
Lemma request_status_exclusive_witness :
  one_status (sload (idRequests one_request) 1).
Proof.
  refine (proj1 (request_status_exclusive one_request 1 _) _).
  - apply reachable_step, reachable_deployed. lia.
  - vm_compute. split; discriminate.
Defined.

(** X4. In every reachable state with the request counter below the largest
    [uint256], a request number is in the list [getPendingRequests] returns
    exactly when the request stored under it is pending: no pending request
    is missed, whatever its number. *)
Theorem getPendingRequests_complete (s : State) (id : uint256) :
  reachable s → requestCounter s < MAX_UINT256 →
  ∃ l, call getPendingRequests s = (inr l, s) ∧
       (id ∈ l ↔ IDRequest.isPending (sload (idRequests s) id) = true).
Proof.
  intros Hs Hc. pose proof (reachable_ReqInv s Hs) as HR.
  eexists. split; [unfold call; by rewrite getPendingRequests_run|].
  unfold pendingAmong. rewrite list_elem_of_filter, elem_of_idsUpTo.
  split; [by intros [? _]|]. intros Hp. split; [done|].
  destruct (idRequests s !! id) as [r|] eqn:Hr.
  - by apply (req_range s HR) in Hr.
  - by rewrite (sload_None _ _ Hr) in Hp.
Qed.

Lemma getPendingRequests_complete_witness :
  ∃ l, call getPendingRequests one_request = (inr l, one_request) ∧
       (1 ∈ l ↔ IDRequest.isPending (sload (idRequests one_request) 1) = true).
Proof.
  apply (getPendingRequests_complete one_request 1).
  - apply reachable_step, reachable_deployed. lia.
  - reflexivity.
Defined.

(** X5. In every reachable state [getUserRequests] of an address returns,
    in strictly increasing order and hence without repetition, exactly the
    numbers of the requests that address submitted. *)
Theorem getUserRequests_exact (s : State) (a : address) :
  reachable s →
  ∃ l, call (getUserRequests a) s = (inr l, s) ∧
       StronglySorted N.lt l ∧
       ∀ id, id ∈ l ↔
         (1 ≤ id ∧ id ≤ requestCounter s ∧
          IDRequest.requester (sload (idRequests s) id) = a).
Proof.
  intros Hs. pose proof (reachable_ReqInv s Hs) as HR.
  eexists. split; [reflexivity|]. split; [apply (req_sorted s HR)|].
  intros id. rewrite (req_listed s HR). split.
  - intros (r & Hr & Ha). rewrite (sload_Some _ _ _ Hr).
    apply (req_range s HR) in Hr. tauto.
  - intros (Hlo & Hhi & Ha). destruct (req_dense s HR id Hlo Hhi) as [r Hr].
    exists r. by rewrite (sload_Some _ _ _ Hr) in Ha.
Qed.

Lemma getUserRequests_exact_witness :
  ∃ l, call (getUserRequests 5) one_request = (inr l, one_request) ∧
       StronglySorted N.lt l.
Proof.
  destruct (getUserRequests_exact one_request 5) as (l & Hl & Hs & _).
  - apply reachable_step, reachable_deployed. lia.
  - by exists l.
Defined.

(** ** What one transaction can change *)

Lemma step_cases env c s :
  step env c s = s ∨ ∃ v, dispatch env c s = Ok v (step env c s).
Proof.
  unfold step, transact, call.
  destruct (dispatch env c s) as [v s'|e s']; simpl; [right; by exists v|by left].
Qed.

(** X6. One transaction changes a request already submitted in at most one
    way: a pending request becomes approved, or becomes rejected.  The
    requester, the metadata pointer, the time of submission and the
    fingerprint are never rewritten, and a resolved request is never
    touched. *)
Theorem request_transitions (env : Env) (c : Call) (s : State)
    (id : uint256) :
  id ≤ requestCounter s →
  let r := sload (idRequests s) id in
  let r' := sload (idRequests (step env c s)) id in
  r' = r ∨
  (IDRequest.isPending r = true ∧
   r' = IDRequest.set_isApproved true (IDRequest.set_isPending false r)) ∨
  (IDRequest.isPending r = true ∧
   r' = IDRequest.set_isRejected true (IDRequest.set_isPending false r)).
Proof.
  intros Hid. cbv zeta.
  destruct (step_cases env c s) as [-> | [v Hrun]]; [by left|].
  revert Hrun. generalize (step env c s). intros s' Hrun.
  destruct c; simpl in Hrun; unfold_entry Hrun; tx_unfold; tx_cases;
    bool_facts; simpl; try (by left).
  - left. rewrite sload_insert_ne; [done|lia].
  - destruct (decide (requestId = id)) as [->|Hne].
    + right; left. by rewrite !sload_insert_eq.
    + left. by rewrite !sload_insert_ne.
  - destruct (decide (requestId = id)) as [->|Hne].
    + right; left. by rewrite !sload_insert_eq.
    + left. by rewrite !sload_insert_ne.
  - destruct (decide (requestId = id)) as [->|Hne].
    + right; right. by rewrite !sload_insert_eq.
    + left. by rewrite !sload_insert_ne.
Qed.

(** The admin rejects the request of [one_request]. *)
Lemma request_transitions_witness :
  IDRequest.isRejected
    (sload (idRequests
              (step (mkEnv 2 20) (RejectIDRequest 1 "insufficient proof")
                    one_request)) 1) = true.
Proof.
  destruct (request_transitions (mkEnv 2 20)
              (RejectIDRequest 1 "insufficient proof") one_request 1)
    as [H | [[_ H] | [_ H]]].
  - vm_compute. discriminate.
  - exfalso. vm_compute in H. discriminate.
  - exfalso. vm_compute in H. discriminate.
  - rewrite H. reflexivity.
Defined.

(** X7. History only grows: one transaction never lowers a counter, raises
    each by at most one, and only appends to the event log; a reverted one
    appends nothing. *)
Theorem history_only_grows (env : Env) (c : Call) (s : State) :
  let s' := step env c s in
  (requestCounter s' = requestCounter s ∨
   requestCounter s' = requestCounter s + 1) ∧
  (idCounter s' = idCounter s ∨ idCounter s' = idCounter s + 1) ∧
  events s `prefix_of` events s' ∧
  (∀ e, fst (transact env c s) = inl e → events s' = events s).
Proof.
  cbv zeta. split; [|split; [|split]].
  4:{ intros e He. unfold step.
      destruct (transact env c s) as [[e'|v] s'] eqn:Ht; simpl in *; [|done].
      unfold transact, call in Ht.
      destruct (dispatch env c s); by inversion Ht. }
  all: destruct (step_cases env c s) as [-> | [v Hrun]]; [by (left || done)|].
  all: revert Hrun; generalize (step env c s); intros s' Hrun.
  all: destruct c; simpl in Hrun; unfold_entry Hrun; tx_unfold; tx_cases;
    simpl; try (by left); try (by right).
  all: repeat (try apply prefix_app_r; try done;
               try (eexists; rewrite <- ?app_assoc; reflexivity)).
Qed.

(** X8. Every successful transaction appends at least one event to the log,
    except [updateIdentityData], which changes the metadata pointer of an
    identity without logging anything. *)
Theorem events_of_success (env : Env) (c : Call) (s s' : State)
    (v : Value) :
  dispatch env c s = Ok v s' →
  match c with
  | UpdateIdentityData _ _ => events s' = events s
  | _ => ∃ e rest, events s' = events s ++ e :: rest
  end.
Proof.
  intros Hrun.
  destruct c; simpl in Hrun; unfold_entry Hrun; tx_unfold; tx_cases;
    simpl; try done.
  all: rewrite <- ?app_assoc; simpl; by eexists _, _.
Qed.

(** The owner of the identity of [minted_while_pending] replaces its
    metadata pointer. *)
Lemma events_of_success_witness :
  events (step (mkEnv 5 30) (UpdateIdentityData 1 "Qm3") minted_while_pending)
    = events minted_while_pending.
Proof.
  exact (events_of_success (mkEnv 5 30) (UpdateIdentityData 1 "Qm3")
           minted_while_pending
           (step (mkEnv 5 30) (UpdateIdentityData 1 "Qm3")
                 minted_while_pending)
           VUnit eq_refl).
Defined.

(** ** Resolved requests *)

(** One transaction leaves a resolved request as it is, and within the
    numbers handed out. *)
Lemma step_keeps_resolved env c s id :
  id ≤ requestCounter s →
  IDRequest.isPending (sload (idRequests s) id) = false →
  sload (idRequests (step env c s)) id = sload (idRequests s) id ∧
  id ≤ requestCounter (step env c s).
Proof.
  intros Hid Hnp.
  destruct (step_cases env c s) as [-> | [v Hrun]]; [done|].
  revert Hrun. generalize (step env c s). intros s' Hrun.
  destruct c; simpl in Hrun; unfold_entry Hrun; tx_unfold; tx_cases;
    bool_facts; simpl; try done.
  - split; [|lia]. rewrite sload_insert_ne; [done|lia].
  - split; [|done]. rewrite !sload_insert_ne; [done|congruence..].
  - split; [|done]. rewrite !sload_insert_ne; [done|congruence..].
  - split; [|done]. rewrite !sload_insert_ne; [done|congruence..].
Qed.

Lemma run_keeps_resolved txs s id :
  id ≤ requestCounter s →
  IDRequest.isPending (sload (idRequests s) id) = false →
  sload (idRequests (run txs s)) id = sload (idRequests s) id.
Proof.
  revert s. induction txs as [|[env c] rest IH]; intros s Hid Hnp; [done|].
  simpl. destruct (step_keeps_resolved env c s id Hid Hnp) as [Heq Hle].
  rewrite IH; [done | done | by rewrite Heq].
Qed.

(** X9. A resolved request is final: once a request is approved or
    rejected, no sequence of transactions changes its record, and every
    later attempt of the admin to approve or reject it fails as not
    pending. *)
Theorem resolved_request_is_final (s : State) (id : uint256)
    (txs : list (Env * Call)) :
  id ≤ requestCounter s →
  IDRequest.requester (sload (idRequests s) id) ≠ 0 →
  IDRequest.isPending (sload (idRequests s) id) = false →
  let s' := run txs s in
  sload (idRequests s') id = sload (idRequests s) id ∧
  (∀ env d, msg_sender env = adminWallet s' →
     fails_with (approveIDRequest env id d) s'
       (Reason "BlockID: request is not pending") InvalidStateError) ∧
  (∀ env why, msg_sender env = adminWallet s' →
     fails_with (rejectIDRequest env id why) s'
       (Reason "BlockID: request is not pending") InvalidStateError).
Proof.
  intros Hid Hreq Hnp. cbv zeta.
  pose proof (run_keeps_resolved txs s id Hid Hnp) as Heq.
  split; [done|].
  split; intros env ? Hadm; unfold fails_with, call.
  - unfold approveIDRequest. tx_unfold.
    tx_cases; bool_facts; rewrite ?Heq in *; try done; congruence.
  - unfold rejectIDRequest. tx_unfold.
    tx_cases; bool_facts; rewrite ?Heq in *; try done; congruence.
Qed.

(** After rejecting the request of [one_request], and after a further
    request by account 6, the admin tries to approve the rejected one. *)
Lemma resolved_request_is_final_witness :
  fails_with (approveIDRequest (mkEnv 2 40) 1 0)
    (run [ (mkEnv 6 30, RequestIdentity "Qn" "passport" 8) ]
         (step (mkEnv 2 20) (RejectIDRequest 1 "insufficient proof")
               one_request))
    (Reason "BlockID: request is not pending") InvalidStateError.
Proof.
  refine (proj1 (proj2 (resolved_request_is_final
            (step (mkEnv 2 20) (RejectIDRequest 1 "insufficient proof")
                  one_request) 1
            [ (mkEnv 6 30, RequestIdentity "Qn" "passport" 8) ] _ _ _))
            (mkEnv 2 40) 0 _).
  - vm_compute. discriminate.
  - vm_compute. discriminate.
  - vm_compute. reflexivity.
  - vm_compute. reflexivity.
Defined.

(** ** Submitting, resolving and submitting again *)

Lemma pendingWith_false s h reqIds :
  pendingWith s h reqIds = false ↔
  ∀ x, x ∈ reqIds →
    IDRequest.isPending (sload (idRequests s) x)
    && (IDRequest.uniqueIdentityHash (sload (idRequests s) x) =? h) = false.
Proof.
  unfold pendingWith. induction reqIds as [|y rest IH]; simpl.
  - split; [|done]. intros _ x Hx. by apply elem_of_nil in Hx.
  - rewrite orb_false_iff, IH. split.
    + intros [Hy Hrest] x Hx. apply elem_of_cons in Hx as [->|Hx]; auto.
    + intros Hall. split; [|intros x Hx]; apply Hall; set_solver.
Qed.

Lemma pendingWith_true s h reqIds x :
  x ∈ reqIds →
  IDRequest.isPending (sload (idRequests s) x) = true →
  IDRequest.uniqueIdentityHash (sload (idRequests s) x) = h →
  pendingWith s h reqIds = true.
Proof.
  intros Hx Hp Hh. destruct (pendingWith s h reqIds) eqn:E; [done|].
  rewrite pendingWith_false in E. specialize (E x Hx).
  rewrite Hp, Hh, N.eqb_refl in E. discriminate.
Qed.

(** What a successful [requestIdentity] has checked and written. *)
Lemma requestIdentity_Ok env ipfsHash idType uniqueHash s rid s' :
  requestIdentity env ipfsHash idType uniqueHash s = Ok rid s' →
  sload (walletToId s) (msg_sender env) = 0 ∧
  sload (hashToId s) uniqueHash = 0 ∧
  pendingWith s uniqueHash (sload (userRequests s) (msg_sender env)) = false ∧
  requestCounter s < MAX_UINT256 ∧
  rid = requestCounter s + 1 ∧
  s' = log (IDRequested rid (msg_sender env) uniqueHash)
       (upd_userRequests (fun m =>
          <[msg_sender env := sload m (msg_sender env) ++ [rid]]> m)
       (upd_idRequests (<[rid :=
          IDRequest.mk (msg_sender env) ipfsHash (block_timestamp env)
            uniqueHash true false false]>)
       (set_requestCounter rid s))).
Proof.
  unfold requestIdentity. tx_unfold. intros Hrun.
  tx_cases; bool_facts. repeat split; try done. lia.
Qed.

(** X10. A successful submission can be read back: unless the caller is the
    null address, [getRequestDetails] of the returned number gives the
    requester, the metadata pointer, the time and the fingerprint of the
    call, with status pending; and the number is the last entry of the
    caller's [getUserRequests]. *)
Theorem submitted_request_reads_back (env : Env) (ipfsHash idType : string)
    (uniqueHash : bytes32) (s s' : State) (rid : uint256) :
  requestIdentity env ipfsHash idType uniqueHash s = Ok rid s' →
  msg_sender env ≠ 0 →
  call (getRequestDetails rid) s' =
    (inr (IDRequest.mk (msg_sender env) ipfsHash (block_timestamp env)
            uniqueHash true false false), s') ∧
  call (getUserRequests (msg_sender env)) s' =
    (inr (sload (userRequests s) (msg_sender env) ++ [rid]), s').
Proof.
  intros Hrun Hne.
  destruct (requestIdentity_Ok _ _ _ _ _ _ _ Hrun) as (_ & _ & _ & _ & _ & ->).
  unfold call, getRequestDetails, getUserRequests. tx_unfold. simpl.
  rewrite !sload_insert_eq. simpl.
  destruct (msg_sender env =? 0) eqn:E; [by apply N.eqb_eq in E|done].
Qed.

Lemma submitted_request_reads_back_witness :
  call (getRequestDetails 1) one_request =
    (inr (IDRequest.mk 5 "Qm" 10 7 true false false), one_request).
Proof.
  refine (proj1 (submitted_request_reads_back (mkEnv 5 10) "Qm" "passport" 7
                   (deployed 1 2) one_request 1 _ _)).
  - vm_compute. reflexivity.
  - simpl. lia.
Defined.

(** X11. Right after a successful submission, a second submission by the
    same caller with the same fingerprint is refused as a duplicate of the
    pending one, whatever its metadata pointer, type and time. *)
Theorem second_submission_refused (env env2 : Env)
    (ipfsHash idType ipfsHash2 idType2 : string) (uniqueHash : bytes32)
    (s s' : State) (rid : uint256) :
  requestIdentity env ipfsHash idType uniqueHash s = Ok rid s' →
  msg_sender env2 = msg_sender env →
  fails_with (requestIdentity env2 ipfsHash2 idType2 uniqueHash) s'
    (Reason "BlockID: a request with this hash is already pending")
    DuplicatePendingRequestError.
Proof.
  intros Hrun Hsame.
  destruct (requestIdentity_Ok _ _ _ _ _ _ _ Hrun)
    as (Hw & Hh & _ & _ & _ & ->).
  assert (Hp : pendingWith
            (log (IDRequested rid (msg_sender env) uniqueHash)
            (upd_userRequests (fun m =>
               <[msg_sender env := sload m (msg_sender env) ++ [rid]]> m)
            (upd_idRequests (<[rid :=
               IDRequest.mk (msg_sender env) ipfsHash (block_timestamp env)
                 uniqueHash true false false]>)
            (set_requestCounter rid s)))) uniqueHash
            (sload (userRequests s) (msg_sender env) ++ [rid]) = true).
  { apply (pendingWith_true _ _ _ rid); [set_solver | |];
      simpl; by rewrite sload_insert_eq. }
  unfold fails_with, call, requestIdentity. tx_unfold. rewrite Hsame.
  tx_cases; bool_facts; simpl in *; rewrite ?sload_insert_eq in *;
    try done; congruence.
Qed.

Lemma second_submission_refused_witness :
  fails_with (requestIdentity (mkEnv 5 99) "other" "license" 7) one_request
    (Reason "BlockID: a request with this hash is already pending")
    DuplicatePendingRequestError.
Proof.
  refine (second_submission_refused (mkEnv 5 10) (mkEnv 5 99) "Qm" "passport"
            "other" "license" 7 (deployed 1 2) one_request 1 _ _).
  - vm_compute. reflexivity.
  - reflexivity.
Defined.

(** X12. A rejection frees the fingerprint for the requester: after a
    submission and its rejection by the admin, the same caller can submit
    the same fingerprint again, and gets the next request number. *)
Theorem resubmission_after_rejection (env env2 env3 : Env)
    (ipfsHash idType why ipfsHash3 idType3 : string) (uniqueHash : bytes32)
    (s s1 s2 : State) (rid : uint256) :
  requestIdentity env ipfsHash idType uniqueHash s = Ok rid s1 →
  rejectIDRequest env2 rid why s1 = Ok tt s2 →
  msg_sender env3 = msg_sender env →
  rid < MAX_UINT256 →
  ∃ s3, requestIdentity env3 ipfsHash3 idType3 uniqueHash s2 =
          Ok (rid + 1) s3.
Proof.
  intros Hsub Hrej Hsame Hfit.
  destruct (requestIdentity_Ok _ _ _ _ _ _ _ Hsub)
    as (Hw & Hh & Hp & _ & -> & ->).
  revert Hrej. unfold rejectIDRequest. tx_unfold. intros Hrej.
  tx_cases; bool_facts. simpl in *.
  eexists. rewrite requestIdentity_succeeds; simpl; rewrite ?Hsame;
    [reflexivity | done | done | | done].
  rewrite sload_insert_eq. apply pendingWith_false. intros x Hx. simpl.
  destruct (decide (x = requestCounter s + 1)) as [->|Hne].
  - by rewrite !sload_insert_eq.
  - rewrite !sload_insert_ne by done.
    rewrite pendingWith_false in Hp. apply Hp. set_solver.
Qed.

Lemma resubmission_after_rejection_witness :
  ∃ s3, requestIdentity (mkEnv 5 30) "Qm" "passport" 7
          (step (mkEnv 2 20) (RejectIDRequest 1 "insufficient proof")
                one_request) = Ok 2 s3.
Proof.
  refine (resubmission_after_rejection (mkEnv 5 10) (mkEnv 2 20) (mkEnv 5 30)
            "Qm" "passport" "insufficient proof" "Qm" "passport" 7
            (deployed 1 2) one_request
            (step (mkEnv 2 20) (RejectIDRequest 1 "insufficient proof")
                  one_request) 1 _ _ _ _).
  - vm_compute. reflexivity.
  - vm_compute. reflexivity.
  - reflexivity.
  - reflexivity.
Defined.

(** ** Created identities *)

(** What a successful [createIdentity] has checked and written. *)
Lemma createIdentity_Ok env owner ipfsHash d idType uniqueHash s idNumber s' :
  createIdentity env owner ipfsHash d idType uniqueHash s = Ok idNumber s' →
  msg_sender env = adminWallet s ∧
  sload (walletToId s) owner = 0 ∧
  sload (hashToId s) uniqueHash = 0 ∧
  idNumber = idCounter s + 1 ∧
  s' = log (IdentityCreated idNumber owner idType uniqueHash)
       (upd_hashToId (<[uniqueHash := idNumber]>)
       (upd_walletToId (<[owner := idNumber]>)
       (upd_identities (<[idNumber :=
          Identity.mk owner ipfsHash (block_timestamp env)
            (expiresAtOf env d) true idType uniqueHash]>)
       (set_idCounter idNumber s)))).
Proof.
  unfold createIdentity, expiresAtOf. tx_unfold. intros Hrun.
  tx_cases; bool_facts; repeat split; done.
Qed.

(** X14. A direct creation can be read back: for an owner other than the
    null address, [getIdentity] of the returned number gives the owner, the
    metadata pointer, the type and the fingerprint of the call, created at
    the time of the call and verified; both lookups by owner and by
    fingerprint give the number; and [verifyIdentityHash] accepts the
    fingerprint and no other. *)
Theorem created_identity_reads_back (env : Env) (owner : address)
    (ipfsHash : string) (d : uint256) (idType : string)
    (uniqueHash : bytes32) (s s' : State) (idNumber : uint256) :
  createIdentity env owner ipfsHash d idType uniqueHash s = Ok idNumber s' →
  owner ≠ 0 →
  call (getIdentity idNumber) s' =
    (inr (Identity.mk owner ipfsHash (block_timestamp env)
            (expiresAtOf env d) true idType uniqueHash), s') ∧
  call (getIdentityByOwner owner) s' = (inr idNumber, s') ∧
  call (getIdentityByHash uniqueHash) s' = (inr idNumber, s') ∧
  call (hasIdentity owner) s' = (inr true, s') ∧
  call (isHashRegistered uniqueHash) s' = (inr true, s') ∧
  ∀ claimedHash,
    call (verifyIdentityHash idNumber claimedHash) s' =
      (inr (uniqueHash =? claimedHash), s').
Proof.
  intros Hrun Hne.
  destruct (createIdentity_Ok _ _ _ _ _ _ _ _ _ Hrun)
    as (_ & _ & _ & Hid & ->).
  assert (Hnz : (idNumber =? 0) = false) by (apply N.eqb_neq; lia).
  assert (Ho : (owner =? 0) = false) by (by apply N.eqb_neq).
  unfold call, getIdentity, getIdentityByOwner, getIdentityByHash,
    hasIdentity, isHashRegistered, verifyIdentityHash. tx_unfold. simpl.
  rewrite !sload_insert_eq. simpl. rewrite Ho, Hnz. simpl. done.
Qed.

Lemma created_identity_reads_back_witness :
  call (getIdentityByOwner 5) minted_while_pending =
    (inr 1, minted_while_pending).
Proof.
  refine (proj1 (proj2 (created_identity_reads_back (mkEnv 2 11) 5 "Qm" 0
            "passport" 7 one_request minted_while_pending 1 _ _))).
  - vm_compute. reflexivity.
  - lia.
Defined.

(** X15. The validity window of a created identity: right after a direct
    creation at time [t0] with duration [d] for an owner other than the null
    address, [isIdentityValid] asked at time [t] answers true exactly when
    [d] is zero (no expiry) or [t] is at most [t0 + d]. *)
Theorem created_identity_validity_window (env : Env) (owner : address)
    (ipfsHash : string) (d : uint256) (idType : string)
    (uniqueHash : bytes32) (s s' : State) (idNumber : uint256)
    (env' : Env) :
  createIdentity env owner ipfsHash d idType uniqueHash s = Ok idNumber s' →
  owner ≠ 0 →
  call (isIdentityValid env' idNumber) s' =
    (inr ((d =? 0) || (block_timestamp env' <=? block_timestamp env + d)), s').
Proof.
  intros Hrun Hne.
  destruct (createIdentity_Ok _ _ _ _ _ _ _ _ _ Hrun)
    as (_ & _ & _ & Hid & ->).
  assert (Ho : (owner =? 0) = false) by (by apply N.eqb_neq).
  unfold call, isIdentityValid, expiresAtOf. tx_unfold. simpl.
  rewrite !sload_insert_eq. simpl. rewrite Ho. simpl.
  destruct (0 <? d) eqn:Hd; bool_facts.
  - assert (Hd0 : (d =? 0) = false) by (apply N.eqb_neq; lia).
    assert (Hpos : (0 <? block_timestamp env + d) = true)
      by (apply N.ltb_lt; lia).
    rewrite Hd0, Hpos. simpl.
    destruct (block_timestamp env + d <? block_timestamp env') eqn:E1;
      destruct (block_timestamp env' <=? block_timestamp env + d) eqn:E2;
      bool_facts; try done; lia.
  - assert (Hd0 : (d =? 0) = true) by (apply N.eqb_eq; lia).
    by rewrite Hd0.
Qed.

(** An identity created at time 100 for an hour is no longer valid at time
    3701. *)
Lemma created_identity_validity_window_witness :
  call (isIdentityValid (mkEnv 9 3701) 1)
       (step (mkEnv 2 100) (CreateIdentity 5 "Qm" 3600 "passport" 7)
             (deployed 1 2)) =
    (inr false,
     step (mkEnv 2 100) (CreateIdentity 5 "Qm" 3600 "passport" 7)
          (deployed 1 2)).
Proof.
  refine (created_identity_validity_window (mkEnv 2 100) 5 "Qm" 3600
            "passport" 7 (deployed 1 2)
            (step (mkEnv 2 100) (CreateIdentity 5 "Qm" 3600 "passport" 7)
                  (deployed 1 2)) 1 (mkEnv 9 3701) _ _).
  - vm_compute. reflexivity.
  - lia.
Defined.

(** ** Identities through transactions *)

(** One transaction leaves a stored record in place with its credential
    untouched and verified, or deletes it. *)
Lemma step_keeps_credential env c s n (i : Identity.t) :
  Inv s → identities s !! n = Some i →
  identities (step env c s) !! n = None ∨
  ∃ i', identities (step env c s) !! n = Some i' ∧ same_credential i i'.
Proof.
  intros HI Hn. destruct (inv_ledger s HI _ _ Hn) as (_ & Hle & _).
  assert (Hsame : same_credential i i) by (by repeat split).
  destruct (step_cases env c s) as [-> | [v Hrun]]; [right; by exists i|].
  revert Hrun. generalize (step env c s). intros s' Hrun.
  destruct c; simpl in Hrun; unfold_entry Hrun; tx_unfold; tx_cases;
    bool_facts; simpl; try (right; by exists i).
  - right. exists i. by rewrite lookup_insert_ne by lia.
  - right. exists i. by rewrite lookup_insert_ne by lia.
  - right. exists i. by rewrite lookup_insert_ne by lia.
  - right. exists i. by rewrite lookup_insert_ne by lia.
  - destruct (decide (idNumber = n)) as [->|Hne].
    + right. rewrite lookup_insert_eq, (sload_Some _ _ _ Hn).
      eexists. split; [done|]. by repeat split.
    + right. exists i. by rewrite lookup_insert_ne.
  - destruct (decide (idNumber = n)) as [->|Hne].
    + left. apply lookup_delete_eq.
    + right. exists i. by rewrite lookup_delete_ne.
  - destruct (decide (idNumber = n)) as [->|Hne].
    + right. rewrite lookup_insert_eq, (sload_Some _ _ _ Hn).
      eexists. split; [done|]. by repeat split.
    + right. exists i. by rewrite lookup_insert_ne.
Qed.

(** One transaction leaves an unused number at most the identity counter
    unused. *)
Lemma step_keeps_absent env c s n :
  n ≤ idCounter s → identities s !! n = None →
  identities (step env c s) !! n = None ∧ n ≤ idCounter (step env c s).
Proof.
  intros Hle Hn.
  destruct (step_cases env c s) as [-> | [v Hrun]]; [done|].
  revert Hrun. generalize (step env c s). intros s' Hrun.
  destruct c; simpl in Hrun; unfold_entry Hrun; tx_unfold; tx_cases;
    bool_facts; simpl; try done.
  - split; [|lia]. by rewrite lookup_insert_ne by lia.
  - split; [|lia]. by rewrite lookup_insert_ne by lia.
  - split; [|lia]. by rewrite lookup_insert_ne by lia.
  - split; [|lia]. by rewrite lookup_insert_ne by lia.
  - split; [|done]. rewrite lookup_insert_ne; [done|].
    intros ->. by rewrite (sload_None _ _ Hn) in Heqb0.
  - split; [|done]. destruct (decide (idNumber = n)) as [->|Hne].
    + apply lookup_delete_eq.
    + by rewrite lookup_delete_ne.
  - split; [|done]. rewrite lookup_insert_ne; [done|].
    intros ->. by rewrite (sload_None _ _ Hn) in Heqb.
Qed.

Lemma run_Inv txs s : Inv s → Inv (run txs s).
Proof.
  revert s. induction txs as [|[env c] rest IH]; intros s HI; simpl; [done|].
  apply IH. by apply step_Inv.
Qed.

Lemma run_keeps_absent txs s n :
  n ≤ idCounter s → identities s !! n = None →
  identities (run txs s) !! n = None.
Proof.
  revert s. induction txs as [|[env c] rest IH]; intros s Hle Hn; [done|].
  simpl. destruct (step_keeps_absent env c s n Hle Hn) as [Hn' Hle'].
  by apply IH.
Qed.

(** X16. Identities are soulbound.  From a reachable state, through any
    sequence of transactions, the identity under a number keeps its owner,
    its creation time, its expiry, its type and its fingerprint, and stays
    verified, for as long as it exists: only its metadata pointer can
    change. *)
Theorem identity_is_soulbound (s : State) (n : uint256)
    (txs : list (Env * Call)) :
  reachable s → exists_identity s n → exists_identity (run txs s) n →
  same_credential (sload (identities s) n)
                  (sload (identities (run txs s)) n) ∧
  Identity.isVerified (sload (identities (run txs s)) n) = true.
Proof.
  intros Hs Hex Hex'. pose proof (reachable_Inv s Hs) as HI. clear Hs.
  apply owner_lookup in Hex. revert Hex. generalize (sload (identities s) n).
  intros i Hi. revert s i HI Hi Hex'.
  induction txs as [|[env c] rest IH]; intros s i HI Hi Hex'; simpl in *.
  - rewrite (sload_Some _ _ _ Hi).
    split; [by repeat split|]. by destruct (inv_ledger s HI _ _ Hi) as (_&_&_&_&?).
  - destruct (step_keeps_credential env c s n i HI Hi) as [Hnone | (i' & Hi' & Hc)].
    + exfalso. assert (Hle : n ≤ idCounter (step env c s)).
      { destruct (inv_ledger s HI _ _ Hi) as (_ & Hle & _).
        destruct (step_cases env c s) as [-> | [v Hrun]]; [done|].
        revert Hrun. generalize (step env c s). intros s' Hrun.
        destruct c; simpl in Hrun; unfold_entry Hrun; tx_unfold; tx_cases;
          simpl; lia. }
      pose proof (run_keeps_absent rest _ n Hle Hnone) as Hgone.
      unfold exists_identity in Hex'. rewrite (sload_None _ _ Hgone) in Hex'.
      by apply Hex'.
    + destruct (IH (step env c s) i' (step_Inv env c s HI) Hi' Hex')
        as [(H1 & H2 & H3 & H4 & H5) Hv].
      destruct Hc as (G1 & G2 & G3 & G4 & G5).
      split; [|done]. repeat split; congruence.
Qed.

(** The identity of [minted_while_pending] after its owner replaced the
    metadata pointer. *)
Lemma identity_is_soulbound_witness :
  Identity.owner
    (sload (identities (run [ (mkEnv 5 30, UpdateIdentityData 1 "Qm3") ]
                            minted_while_pending)) 1) =
  Identity.owner (sload (identities minted_while_pending) 1).
Proof.
  refine (proj1 (proj1 (identity_is_soulbound minted_while_pending 1
            [ (mkEnv 5 30, UpdateIdentityData 1 "Qm3") ] _ _ _))).
  - apply reachable_run, reachable_deployed. lia.
  - vm_compute. discriminate.
  - vm_compute. discriminate.
Defined.

(** X17. Identity numbers are never reused: a number at most the identity
    counter under which no identity exists (never minted for a real owner,
    or revoked) stays without identity through every sequence of
    transactions. *)
Theorem revoked_number_never_returns (s : State) (n : uint256)
    (txs : list (Env * Call)) :
  reachable s → n ≤ idCounter s → ¬ exists_identity s n →
  ¬ exists_identity (run txs s) n.
Proof.
  intros Hs Hle Hno. pose proof (reachable_Inv s Hs) as HI. clear Hs.
  revert s HI Hle Hno.
  induction txs as [|[env c] rest IH]; intros s HI Hle Hno; [done|].
  simpl. apply IH; [by apply step_Inv | |].
  - destruct (step_cases env c s) as [-> | [v Hrun]]; [done|].
    revert Hrun. generalize (step env c s). intros s' Hrun.
    destruct c; simpl in Hrun; unfold_entry Hrun; tx_unfold; tx_cases;
      simpl; lia.
  - unfold exists_identity in *.
    destruct (identities s !! n) as [i|] eqn:Hi.
    + destruct (step_keeps_credential env c s n i HI Hi)
        as [Hnone | (i' & Hi' & Hc)].
      * rewrite (sload_None _ _ Hnone). intros H. by apply H.
      * rewrite (sload_Some _ _ _ Hi'). rewrite (sload_Some _ _ _ Hi) in Hno.
        destruct Hc as (Ho & _). by rewrite Ho.
    + destruct (step_keeps_absent env c s n Hle Hi) as [Hnone _].
      rewrite (sload_None _ _ Hnone). intros H. by apply H.
Qed.

(** In [revoked_while_pending] number 1 is revoked; a later direct creation
    for the same owner and fingerprint does not bring it back. *)
Lemma revoked_number_never_returns_witness :
  ¬ exists_identity
      (run [ (mkEnv 2 13, CreateIdentity 5 "Qm" 0 "passport" 7) ]
           revoked_while_pending) 1.
Proof.
  refine (revoked_number_never_returns revoked_while_pending 1
            [ (mkEnv 2 13, CreateIdentity 5 "Qm" 0 "passport" 7) ] _ _ _).
  - apply reachable_step, reachable_run, reachable_deployed. lia.
  - vm_compute. discriminate.
  - unfold exists_identity. vm_compute. intros H. by apply H.
Defined.

(** ** Revocation rights *)

(** X18. [revokeIdentity] on an existing identity succeeds exactly for the
    identity's owner, any verifier, the contract owner and the admin, and
    then no identity exists under the number; every other caller is refused
    as unauthorized.  On a number without identity it is refused as not
    found, whoever calls. *)
Theorem revokeIdentity_rights (env : Env) (n : uint256) (s : State) :
  let i := sload (identities s) n in
  let entitled :=
    Identity.owner i = msg_sender env ∨
    sload (verifiers s) (msg_sender env) = true ∨
    _owner s = msg_sender env ∨
    msg_sender env = adminWallet s in
  (exists_identity s n → entitled →
     ∃ s', revokeIdentity env n s = Ok tt s' ∧ ¬ exists_identity s' n) ∧
  (exists_identity s n → ¬ entitled →
     fails_with (revokeIdentity env n) s
       (Reason "BlockID: caller is not authorized") AuthorizationError) ∧
  (¬ exists_identity s n →
     fails_with (revokeIdentity env n) s
       (Reason "BlockID: identity does not exist") NotFoundError).
Proof.
  cbv zeta. unfold exists_identity, fails_with, call, revokeIdentity.
  tx_unfold. split; [|split].
  - intros Hex Hent. tx_cases; bool_facts; try done.
    + eexists. split; [reflexivity|]. simpl. rewrite sload_delete.
      case_decide; [|done]. intros Hz. by apply Hz.
    + exfalso. repeat (apply orb_false_iff in Heqb0 as [Heqb0 ?]).
      bool_facts. destruct Hent as [?|[?|[?|?]]]; congruence.
  - intros Hex Hent. tx_cases; bool_facts; try done.
    exfalso. apply Hent.
    repeat (apply orb_true_iff in Heqb0 as [Heqb0|Heqb0]); bool_facts; auto.
  - intros Hno. tx_cases; bool_facts; done.
Qed.

(** Account 3, which holds no role, tries to revoke the identity of account
    5. *)
Lemma revokeIdentity_rights_witness :
  fails_with (revokeIdentity (mkEnv 3 30) 1) minted_while_pending
    (Reason "BlockID: caller is not authorized") AuthorizationError.
Proof.
  refine (proj1 (proj2 (revokeIdentity_rights (mkEnv 3 30) 1
                          minted_while_pending)) _ _).
  - vm_compute. discriminate.
  - vm_compute. intros [H|[H|[H|H]]]; discriminate H.
Defined.

(** ** Lookups agree with the ledger *)

(** X19. In every reachable state the lookups agree with the ledger: for an
    existing identity, [verifyIdentityHash] accepts a fingerprint exactly
    when [getIdentityByHash] of that fingerprint returns the identity's
    number; and for an address other than the null address, [hasIdentity]
    is true exactly when some identity is owned by it, which is then the one
    [getIdentityByOwner] returns. *)
Theorem lookups_agree_with_ledger (s : State) :
  reachable s →
  (∀ n h, exists_identity s n →
     (call (verifyIdentityHash n h) s = (inr true, s) ↔
      call (getIdentityByHash h) s = (inr n, s))) ∧
  (∀ a, a ≠ 0 →
     (call (hasIdentity a) s = (inr true, s) ↔
      ∃ n, exists_identity s n ∧
           Identity.owner (sload (identities s) n) = a)) ∧
  (∀ a n, exists_identity s n →
     Identity.owner (sload (identities s) n) = a →
     call (getIdentityByOwner a) s = (inr n, s)).
Proof.
  intros Hs. destruct (reachable_Inv s Hs) as [_ Hl Hw Hh].
  unfold exists_identity, call, verifyIdentityHash, getIdentityByHash,
    hasIdentity, getIdentityByOwner. tx_unfold.
  split; [|split].
  - intros n h Hex. pose proof (owner_lookup _ _ Hex) as Hn.
    destruct (Hl _ _ Hn) as (Hlo & _ & _ & Hhn & _).
    destruct (Identity.owner (sload (identities s) n) =? 0) eqn:E;
      [by apply N.eqb_eq in E|]. simpl. split.
    + intros [= Heq]. apply N.eqb_eq in Heq. by rewrite <- Heq, Hhn.
    + intros [= Heq]. destruct (Hh h n Heq) as (i & Hi & Hih); [lia|].
      rewrite (sload_Some _ _ _ Hi), Hih, N.eqb_refl. done.
  - intros a Ha. split.
    + intros [= Heq]. apply negb_true_iff, N.eqb_neq in Heq.
      destruct (Hw a _ eq_refl Heq) as (i & Hi & Hia).
      exists (sload (walletToId s) a).
      rewrite (sload_Some _ _ _ Hi). by rewrite Hia.
    + intros (n & Hex & Hoa). pose proof (owner_lookup _ _ Hex) as Hn.
      destruct (Hl _ _ Hn) as (Hlo & _ & Hwn & _).
      rewrite Hoa in Hwn. rewrite Hwn.
      destruct (n =? 0) eqn:E; [apply N.eqb_eq in E; lia|done].
  - intros a n Hex Hoa. pose proof (owner_lookup _ _ Hex) as Hn.
    destruct (Hl _ _ Hn) as (_ & _ & Hwn & _). by rewrite <- Hoa, Hwn.
Qed.

Lemma lookups_agree_with_ledger_witness :
  call (getIdentityByOwner 5) minted_while_pending =
    (inr 1, minted_while_pending).
Proof.
  refine (proj2 (proj2 (lookups_agree_with_ledger minted_while_pending _))
            5 1 _ _).
  - apply reachable_run, reachable_deployed. lia.
  - vm_compute. discriminate.
  - vm_compute. reflexivity.
Defined.

(** ** Roles through transactions *)

(** A verifier may revoke every existing identity. *)
Lemma verifier_revokes env n s :
  exists_identity s n → sload (verifiers s) (msg_sender env) = true →
  ∃ s', revokeIdentity env n s = Ok tt s'.
Proof.
  unfold exists_identity, revokeIdentity. tx_unfold. intros Hex Hv.
  tx_cases; bool_facts; try done; try (by eexists).
  rewrite Hv, orb_true_r in *. discriminate.
Qed.

(** X20. Replacing the admin does not retire the previous one as a
    verifier.  A successful [changeAdmin], which only the contract owner
    can make and not to the null address, installs the new admin and makes
    it a verifier, but leaves the previous admin in the verifier set: the
    previous admin can still revoke every existing identity. *)
Theorem replaced_admin_stays_verifier (env : Env) (newAdmin : address)
    (s s' : State) :
  reachable s →
  changeAdmin env newAdmin s = Ok tt s' →
  msg_sender env = _owner s ∧ newAdmin ≠ 0 ∧
  adminWallet s' = newAdmin ∧
  sload (verifiers s') newAdmin = true ∧
  sload (verifiers s') (adminWallet s) = true ∧
  ∀ n t, exists_identity s' n →
    ∃ s'', revokeIdentity (mkEnv (adminWallet s) t) n s' = Ok tt s''.
Proof.
  intros Hs Hrun. pose proof (inv_admin s (reachable_Inv s Hs)) as Ha.
  red in Ha.
  assert (Hold : sload (verifiers s') (adminWallet s) = true).
  { revert Hrun. unfold changeAdmin. tx_unfold. intros Hrun.
    tx_cases; bool_facts; simpl; [|done].
    rewrite sload_insert. by case_decide. }
  split; [|split; [|split; [|split; [|split]]]]; try done.
  5:{ intros n t Hex. by apply verifier_revokes. }
  all: revert Hrun; unfold changeAdmin; tx_unfold; intros Hrun;
    tx_cases; bool_facts; simpl; try done.
  by rewrite sload_insert_eq.
Qed.

(** The owner 1 replaces admin 2 by account 3; account 2 then revokes the
    identity of account 5. *)
Lemma replaced_admin_stays_verifier_witness :
  ∃ s'', revokeIdentity (mkEnv 2 50) 1
           (step (mkEnv 1 40) (ChangeAdmin 3) minted_while_pending)
         = Ok tt s''.
Proof.
  refine (proj2 (proj2 (proj2 (proj2 (proj2
            (replaced_admin_stays_verifier (mkEnv 1 40) 3 minted_while_pending
               (step (mkEnv 1 40) (ChangeAdmin 3) minted_while_pending)
               _ _))))) 1 50 _).
  - apply reachable_run, reachable_deployed. lia.
  - vm_compute. reflexivity.
  - vm_compute. discriminate.
Defined.

Lemma removeVerifier_succeeds env verifier s :
  msg_sender env = adminWallet s →
  sload (verifiers s) verifier = true →
  verifier ≠ adminWallet s → verifier ≠ _owner s →
  removeVerifier env verifier s =
    Ok tt (log (VerifierRemoved verifier)
             (upd_verifiers (<[verifier := false]>) s)).
Proof.
  intros Ha Hv Hna Hno. unfold removeVerifier. tx_unfold.
  tx_cases; bool_facts; try done; congruence.
Qed.

(** X21. Adding a verifier and removing it again restores the verifier set:
    in a reachable state, after a successful [addVerifier] of an address
    that is not the contract owner, the admin's [removeVerifier] of that
    address succeeds, and [isVerifier] then answers for every address as it
    did before the two calls. *)
Theorem verifier_added_then_removed (env env2 : Env) (verifier : address)
    (s s1 : State) :
  reachable s →
  addVerifier env verifier s = Ok tt s1 →
  verifier ≠ _owner s →
  msg_sender env2 = adminWallet s →
  ∃ s2, removeVerifier env2 verifier s1 = Ok tt s2 ∧
        ∀ b, call (isVerifier b) s2 = (inr (sload (verifiers s) b), s2).
Proof.
  intros Hs Hadd Hno Hadm.
  pose proof (inv_admin s (reachable_Inv s Hs)) as Ha. red in Ha.
  revert Hadd. unfold addVerifier. tx_unfold. intros Hadd.
  tx_cases; bool_facts.
  assert (Hna : verifier ≠ adminWallet s) by congruence.
  eexists. rewrite removeVerifier_succeeds; simpl;
    [split; [reflexivity|] | done | by rewrite sload_insert_eq | done | done].
  intros b. unfold call, isVerifier. tx_unfold. simpl. f_equal. f_equal.
  rewrite !sload_insert. case_decide; congruence.
Qed.

Lemma verifier_added_then_removed_witness :
  ∃ s2, removeVerifier (mkEnv 2 21) 3
          (step (mkEnv 2 20) (AddVerifier 3) (deployed 1 2)) = Ok tt s2.
Proof.
  destruct (verifier_added_then_removed (mkEnv 2 20) (mkEnv 2 21) 3
              (deployed 1 2)
              (step (mkEnv 2 20) (AddVerifier 3) (deployed 1 2)))
    as (s2 & H & _).
  - apply reachable_deployed. lia.
  - vm_compute. reflexivity.
  - vm_compute. discriminate.
  - vm_compute. reflexivity.
  - exists s2. exact H.
Defined.

(** X22. Only the admin mints and resolves.  A transaction sent by anyone
    else neither creates an identity nor moves the identity counter, and
    leaves every submitted request exactly as it was. *)
Theorem only_admin_mints_and_resolves (env : Env) (c : Call) (s : State) :
  msg_sender env ≠ adminWallet s →
  let s' := step env c s in
  idCounter s' = idCounter s ∧
  (∀ n, exists_identity s' n → exists_identity s n) ∧
  (∀ id, id ≤ requestCounter s →
     sload (idRequests s') id = sload (idRequests s) id).
Proof.
  intros Hna. cbv zeta.
  destruct (step_cases env c s) as [-> | [v Hrun]]; [done|].
  revert Hrun. generalize (step env c s). intros s' Hrun.
  unfold exists_identity.
  destruct c; simpl in Hrun; unfold_entry Hrun; tx_unfold; tx_cases;
    bool_facts; simpl; try done.
  - repeat split; try done. intros id Hid.
    rewrite sload_insert_ne; [done|lia].
  - repeat split; try done. intros n. rewrite sload_insert.
    case_decide; [by subst|done].
  - repeat split; try done. intros n. rewrite sload_delete.
    case_decide; [|done]. intros Hz. by destruct Hz.
  - repeat split; try done. intros n. rewrite sload_insert.
    case_decide; [by subst|done].
Qed.

(** Account 5, which is not the admin, tries to approve its own request. *)
Lemma only_admin_mints_and_resolves_witness :
  idCounter (step (mkEnv 5 20) (ApproveIDRequest 1 0) one_request) =
    idCounter one_request.
Proof.
  refine (proj1 (only_admin_mints_and_resolves (mkEnv 5 20)
                   (ApproveIDRequest 1 0) one_request _)).
  vm_compute. discriminate.
Defined.

(** X23. Role changes are privileged: a transaction that changes the admin
    is a [changeAdmin] to the new admin sent by the contract owner, and a
    transaction that changes the verifier status of any address is sent by
    the admin or by the contract owner. *)
Theorem role_changes_are_privileged (env : Env) (c : Call) (s : State) :
  let s' := step env c s in
  (adminWallet s' ≠ adminWallet s →
     msg_sender env = _owner s ∧ c = ChangeAdmin (adminWallet s')) ∧
  (∀ b, sload (verifiers s') b ≠ sload (verifiers s) b →
     msg_sender env = adminWallet s ∨ msg_sender env = _owner s).
Proof.
  cbv zeta.
  destruct (step_cases env c s) as [-> | [v Hrun]]; [done|].
  revert Hrun. generalize (step env c s). intros s' Hrun.
  destruct c; simpl in Hrun; unfold_entry Hrun; tx_unfold; tx_cases;
    bool_facts; simpl; split; try done; auto.
Qed.

(** The owner 1 makes account 3 the admin. *)
Lemma role_changes_are_privileged_witness :
  msg_sender (mkEnv 1 5) = _owner (deployed 1 2) ∧
  ChangeAdmin 3 =
    ChangeAdmin (adminWallet (step (mkEnv 1 5) (ChangeAdmin 3) (deployed 1 2))).
Proof.
  refine (proj1 (role_changes_are_privileged (mkEnv 1 5) (ChangeAdmin 3)
                   (deployed 1 2)) _).
  vm_compute. discriminate.
Defined.

(** X24. The metadata pointer of an identity changes only by
    [updateIdentityData] on that identity, sent by its owner or by the
    admin: from a reachable state, if an identity exists before and after a
    transaction with a different pointer, the transaction is that call. *)
Theorem metadata_changes_are_privileged (env : Env) (c : Call) (s : State)
    (n : uint256) :
  reachable s →
  exists_identity s n →
  let i := sload (identities s) n in
  let i' := sload (identities (step env c s)) n in
  exists_identity (step env c s) n →
  Identity.ipfsHash i' ≠ Identity.ipfsHash i →
  c = UpdateIdentityData n (Identity.ipfsHash i') ∧
  (msg_sender env = Identity.owner i ∨ msg_sender env = adminWallet s).
Proof.
  intros Hs Hex. cbv zeta. pose proof (reachable_Inv s Hs) as HI.
  pose proof (owner_lookup _ _ Hex) as Hn.
  destruct (inv_ledger s HI _ _ Hn) as (_ & Hle & _).
  destruct (step_cases env c s) as [-> | [v Hrun]]; [done|].
  revert Hrun. generalize (step env c s). intros s' Hrun.
  unfold exists_identity.
  destruct c; simpl in Hrun; unfold_entry Hrun; tx_unfold; tx_cases;
    bool_facts; simpl; try done.
  1-4: rewrite sload_insert_ne by lia; done.
  - rewrite sload_insert. case_decide; [by subst|done].
  - rewrite sload_delete. case_decide; [|done]. intros Hz. by destruct Hz.
  - rewrite sload_insert. case_decide as Hd; [subst idNumber|done].
    simpl. intros _ _. split; [done|].
    apply orb_true_iff in Heqb0 as [E|E]; bool_facts; auto.
Qed.

Lemma metadata_changes_are_privileged_witness :
  UpdateIdentityData 1 "Qm3" =
    UpdateIdentityData 1
      (Identity.ipfsHash
         (sload (identities (step (mkEnv 5 30) (UpdateIdentityData 1 "Qm3")
                                  minted_while_pending)) 1)).
Proof.
  refine (proj1 (metadata_changes_are_privileged (mkEnv 5 30)
                   (UpdateIdentityData 1 "Qm3") minted_while_pending 1
                   _ _ _ _)).
  - apply reachable_run, reachable_deployed. lia.
  - vm_compute. discriminate.
  - vm_compute. discriminate.
  - vm_compute. discriminate.
Defined.

(** X25. An identity ends only by revocation: from a reachable state, if an
    identity exists before a transaction and not after it, the transaction
    is [revokeIdentity] of that number, sent by the identity's owner, a
    verifier, the contract owner or the admin, and it zeroes the index
    entries of the identity's owner and fingerprint. *)
Theorem identities_end_by_revocation (env : Env) (c : Call) (s : State)
    (n : uint256) :
  reachable s →
  exists_identity s n →
  ¬ exists_identity (step env c s) n →
  let i := sload (identities s) n in
  c = RevokeIdentity n ∧
  (Identity.owner i = msg_sender env ∨
   sload (verifiers s) (msg_sender env) = true ∨
   _owner s = msg_sender env ∨ msg_sender env = adminWallet s) ∧
  sload (walletToId (step env c s)) (Identity.owner i) = 0 ∧
  sload (hashToId (step env c s)) (Identity.uniqueIdentityHash i) = 0.
Proof.
  intros Hs Hex. cbv zeta. pose proof (reachable_Inv s Hs) as HI.
  pose proof (owner_lookup _ _ Hex) as Hn.
  destruct (inv_ledger s HI _ _ Hn) as (_ & Hle & _).
  destruct (step_cases env c s) as [-> | [v Hrun]]; [done|].
  revert Hrun. generalize (step env c s). intros s' Hrun.
  unfold exists_identity in *.
  destruct c; simpl in Hrun; unfold_entry Hrun; tx_unfold; tx_cases;
    bool_facts; simpl; try done.
  1-4: rewrite sload_insert_ne by lia; done.
  - rewrite sload_insert. case_decide; [by subst|done].
  - rewrite sload_delete. case_decide as Hd; [subst idNumber|done].
    intros _. rewrite !sload_insert_eq. repeat split; try done.
    repeat (apply orb_true_iff in Heqb0 as [Heqb0|Heqb0]); bool_facts; auto.
  - rewrite sload_insert. case_decide; [by subst|done].
Qed.

Lemma identities_end_by_revocation_witness :
  sload (walletToId revoked_while_pending) 5 = 0.
Proof.
  refine (proj1 (proj2 (proj2 (identities_end_by_revocation (mkEnv 5 12)
            (RevokeIdentity 1) minted_while_pending 1 _ _ _)))).
  - apply reachable_run, reachable_deployed. lia.
  - vm_compute. discriminate.
  - unfold exists_identity. vm_compute. intros H. by apply H.
Defined.

(** The request of account 5 extends the event log of the deployment. *)
Lemma history_only_grows_witness :
  events (deployed 1 2) `prefix_of` events one_request.
Proof.
  exact (proj1 (proj2 (proj2 (history_only_grows (mkEnv 5 10)
                  (RequestIdentity "Qm" "passport" 7) (deployed 1 2))))).
Defined.

(** ** Requests competing for a fingerprint *)

Lemma step_idCounter_mono env c s : idCounter s ≤ idCounter (step env c s).
Proof.
  destruct (step_cases env c s) as [-> | [v Hrun]]; [done|].
  revert Hrun. generalize (step env c s). intros s' Hrun.
  destruct c; simpl in Hrun; unfold_entry Hrun; tx_unfold; tx_cases;
    simpl; lia.
Qed.

(** Through any sequence of transactions a stored record that still exists
    has kept its credential. *)
Lemma run_keeps_credential txs s n (i : Identity.t) :
  Inv s → identities s !! n = Some i →
  exists_identity (run txs s) n →
  ∃ i', identities (run txs s) !! n = Some i' ∧ same_credential i i'.
Proof.
  revert s i. induction txs as [|[env c] rest IH]; intros s i HI Hi Hex;
    simpl in *.
  - exists i. split; [done|]. by repeat split.
  - destruct (step_keeps_credential env c s n i HI Hi)
      as [Hnone | (i1 & Hi1 & Hc1)].
    + exfalso. destruct (inv_ledger s HI _ _ Hi) as (_ & Hle & _).
      pose proof (step_idCounter_mono env c s) as Hmono.
      assert (Hle' : n ≤ idCounter (step env c s)) by lia.
      pose proof (run_keeps_absent rest _ n Hle' Hnone) as Hgone.
      unfold exists_identity in Hex. rewrite (sload_None _ _ Hgone) in Hex.
      by apply Hex.
    + destruct (IH (step env c s) i1 (step_Inv env c s HI) Hi1 Hex)
        as (i' & Hi' & Hc').
      exists i'. split; [done|].
      destruct Hc1 as (G1 & G2 & G3 & G4 & G5).
      destruct Hc' as (H1 & H2 & H3 & H4 & H5).
      repeat split; congruence.
Qed.

(** X13. Requests of different callers may carry the same fingerprint, but
    while the identity minted by approving one of them exists, no request
    with that fingerprint can be approved.  From a reachable state, after a
    successful [approveIDRequest] and any further transactions that leave
    the minted identity in existence, [approveIDRequest] on a request
    carrying the same fingerprint never succeeds; called by the admin on a
    pending request whose requester is not the null address and has no
    identity, it fails because the fingerprint is bound. *)
Theorem competing_request_refused (env env2 : Env)
    (r1 r2 d d2 : uint256) (s s1 : State) (idNumber : uint256)
    (txs : list (Env * Call)) :
  reachable s →
  approveIDRequest env r1 d s = Ok idNumber s1 →
  let s2 := run txs s1 in
  exists_identity s2 idNumber →
  IDRequest.uniqueIdentityHash (sload (idRequests s2) r2) =
    IDRequest.uniqueIdentityHash (sload (idRequests s) r1) →
  (∀ v s', approveIDRequest env2 r2 d2 s2 ≠ Ok v s') ∧
  (msg_sender env2 = adminWallet s2 →
   IDRequest.requester (sload (idRequests s2) r2) ≠ 0 →
   IDRequest.isPending (sload (idRequests s2) r2) = true →
   sload (walletToId s2) (IDRequest.requester (sload (idRequests s2) r2)) = 0 →
   fails_with (approveIDRequest env2 r2 d2) s2
     (Reason "BlockID: identity with this hash already exists")
     DuplicateFingerprintError).
Proof.
  intros Hs Happ. cbv zeta. intros Hex Hh.
  assert (HI1 : Inv s1).
  { apply (dispatch_Inv env (ApproveIDRequest r1 d) s (VUint idNumber) s1);
      [|by apply reachable_Inv].
    simpl. unfold returning, bind, ret. by rewrite Happ. }
  destruct (approveIDRequest_Ok _ _ _ _ _ _ Happ)
    as (_ & _ & _ & _ & _ & Hid & Hs1).
  assert (Hrec : ∃ i, identities s1 !! idNumber = Some i ∧
                      Identity.uniqueIdentityHash i =
                        IDRequest.uniqueIdentityHash (sload (idRequests s) r1)).
  { rewrite Hs1. simpl. rewrite lookup_insert_eq. by eexists. }
  destruct Hrec as (i & Hi & Hif). clear Hs1 Happ.
  destruct (run_keeps_credential txs s1 idNumber i HI1 Hi Hex)
    as (i' & Hi' & _ & _ & _ & _ & Hf').
  destruct (inv_ledger _ (run_Inv txs s1 HI1) _ _ Hi')
    as (Hlo & _ & _ & Hbound & _).
  rewrite Hf', Hif, <- Hh in Hbound.
  revert Hbound Hlo. generalize (run txs s1). intros s2 Hbound Hlo.
  assert (Hnz : sload (hashToId s2)
                  (IDRequest.uniqueIdentityHash (sload (idRequests s2) r2)) ≠ 0)
    by (rewrite Hbound; lia).
  unfold fails_with, call, approveIDRequest. tx_unfold. split.
  - intros v s'. tx_cases; bool_facts; try done.
  - intros Hadm Hreq Hp Hw. tx_cases; bool_facts; try done; congruence.
Qed.

(** Accounts 5 and 6 both submit fingerprint 7 and the request of 5 is
    approved; after a further request by account 3 the admin turns to the
    request of 6. *)
Lemma competing_request_refused_witness :
  fails_with (approveIDRequest (mkEnv 2 40) 2 0)
    (run [ (mkEnv 3 31, RequestIdentity "Qo" "passport" 9) ]
       (run [ (mkEnv 5 10, RequestIdentity "Qm" "passport" 7);
              (mkEnv 6 11, RequestIdentity "Qn" "passport" 7);
              (mkEnv 2 30, ApproveIDRequest 1 0) ] (deployed 1 2)))
    (Reason "BlockID: identity with this hash already exists")
    DuplicateFingerprintError.
Proof.
  refine (proj2 (competing_request_refused (mkEnv 2 30) (mkEnv 2 40) 1 2 0 0
            (run [ (mkEnv 5 10, RequestIdentity "Qm" "passport" 7);
                   (mkEnv 6 11, RequestIdentity "Qn" "passport" 7) ]
                 (deployed 1 2))
            (run [ (mkEnv 5 10, RequestIdentity "Qm" "passport" 7);
                   (mkEnv 6 11, RequestIdentity "Qn" "passport" 7);
                   (mkEnv 2 30, ApproveIDRequest 1 0) ] (deployed 1 2))
            1 [ (mkEnv 3 31, RequestIdentity "Qo" "passport" 9) ]
            _ _ _ _) _ _ _ _).
  - apply reachable_run, reachable_deployed. lia.
  - vm_compute. reflexivity.
  - vm_compute. discriminate.
  - vm_compute. reflexivity.
  - vm_compute. reflexivity.
  - vm_compute. discriminate.
  - vm_compute. reflexivity.
  - vm_compute. reflexivity.
Defined.
